(** * kfutil: the root-of-trust audit and reconcile engine (cmd/rot.go)

    A shallow embedding of [isRootStore], [generateAuditReport],
    [reconcileRoots], [readCertsFile] and the two branches of the [Run]
    function of [rotReconcileCmd], followed by the properties of the design
    document checked against them.

    Conventions of the embedding:
    - a Go [int] is a [Z]; a Go [string] is a [string] of bytes;
    - a Go [map] is a [gmap]; ranging over a map visits its entries in an
      order chosen by the runtime, which is a parameter ([MapRange]);
    - the Keyfactor client is a record of oracles ([Client]); each call the
      engine makes on a state-changing end point is recorded as an [Event];
    - [log.Fatalf] and a run-time panic end the run ([Fatal], [Panic]);
    - a CSV file is the list of its records; [encoding/csv] is modelled at
      that level ([csvReadAll], [readAll], [csvWritten]). *)

From Stdlib Require Import ZArith Ascii String DecimalString DecimalZ DecimalPos.
From stdpp Require Import base option list gmap fin_maps strings.

Local Open Scope string_scope.
Local Open Scope list_scope.

(** ** Library functions of the Go runtime the engine calls *)

Module strconv.

(** The range of the 64-bit Go [int]. *)
Definition minInt : Z := (- 2 ^ 63)%Z.
Definition maxInt : Z := (2 ^ 63 - 1)%Z.

Definition intRange (n : Z) : Prop := (minInt ≤ n ≤ maxInt)%Z.

Definition inRange (n : Z) : bool := ((minInt <=? n) && (n <=? maxInt))%Z.

(** The digits of [Atoi]: one or more of 0..9, nothing else. *)
Definition digits (s : string) : option Z :=
  Z.of_uint <$> NilZero.uint_of_string s.

(** [strconv.Atoi]: an optional sign, decimal digits, and a value that
    fits an [int]; anything else is an error. *)
Definition Atoi (s : string) : option Z :=
  match s with
  | EmptyString => None
  | String a r =>
      let v :=
        if Ascii.eqb a "-" then Z.opp <$> digits r
        else if Ascii.eqb a "+" then digits r
        else digits s in
      match v with
      | Some n => if inRange n then Some n else None
      | None => None
      end
  end.

(** [strconv.Itoa]. *)
Definition Itoa (n : Z) : string := NilZero.string_of_int (Z.to_int n).

(** [strconv.ParseBool]: the twelve accepted spellings. *)
Definition ParseBool (s : string) : option bool :=
  if bool_decide (s ∈ ["1"; "t"; "T"; "TRUE"; "true"; "True"]) then Some true
  else if bool_decide (s ∈ ["0"; "f"; "F"; "FALSE"; "false"; "False"]) then Some false
  else None.

End strconv.

Module strings.

(** [strings.Join]. *)
Fixpoint Join (elems : list string) (sep : string) : string :=
  match elems with
  | [] => ""
  | [e] => e
  | e :: rest => String.append e (String.append sep (Join rest sep))
  end.

Definition isUpper (c : ascii) : bool :=
  (65 <=? nat_of_ascii c)%nat && (nat_of_ascii c <=? 90)%nat.

Definition toLower (c : ascii) : ascii :=
  if isUpper c then ascii_of_nat (nat_of_ascii c + 32) else c.

(** Two bytes below [utf8.RuneSelf] that are equal up to ASCII case. *)
Definition foldEqAscii (a c : ascii) : bool :=
  Ascii.eqb (toLower a) (toLower c).

Definition isAscii (c : ascii) : bool := (nat_of_ascii c <? 128)%nat.

(** [strings.EqualFold s t] for a second argument [t] made of ASCII bytes,
    which is how the engine calls it (the joined header).  A byte of [s]
    below 128 must equal the byte of [t] up to ASCII case.  Above 128 the
    only runes whose fold orbit meets ASCII are U+212A (KELVIN SIGN, the
    bytes E2 84 AA, folds to k) and U+017F (LONG S, the bytes C5 BF, folds
    to s); any other rune, or an invalid encoding, never matches. *)
Fixpoint EqualFold (s t : string) : bool :=
  match t with
  | EmptyString => match s with EmptyString => true | _ => false end
  | String c t' =>
      match s with
      | EmptyString => false
      | String a s' =>
          if isAscii a then foldEqAscii a c && EqualFold s' t'
          else
            match s' with
            | String b1 (String b2 s'') =>
                if Ascii.eqb a "226" && Ascii.eqb b1 "132" && Ascii.eqb b2 "170"
                then Ascii.eqb (toLower c) "k" && EqualFold s'' t'
                else if Ascii.eqb a "197" && Ascii.eqb b1 "191"
                then Ascii.eqb (toLower c) "s" && EqualFold (String b2 s'') t'
                else false
            | String b1 s'' =>
                if Ascii.eqb a "197" && Ascii.eqb b1 "191"
                then Ascii.eqb (toLower c) "s" && EqualFold s'' t'
                else false
            | EmptyString => false
            end
      end
  end.

End strings.

(** ** Data model *)

(** The parts of [github.com/Keyfactor/keyfactor-go-client/api] the engine
    reads. The package is not part of this repository; the records list the
    fields the engine uses, with the types it uses them at. *)
Module api.

(** One certificate of an inventory item. *)
Record InventoriedCertificate := {
  IssuedDN : string;
  IssuerDN : string
}.

(** [api.CertStoreInventory]: one item of a store's inventory. *)
Record CertStoreInventory := {
  Certificates : list InventoriedCertificate;
  Parameters : gmap string string;
  Thumbprints : gmap string bool;
  Serials : gmap string bool;
  Ids : gmap Z bool
}.

(** [api.GetCertificateStoreResponse]: only [Id] is read (for logging). *)
Record GetCertificateStoreResponse := { Id : string }.

End api.

(** The certificate found for a thumbprint by [GetCertificateContext]. *)
Record CertificateContext := {
  Id : Z;
  IssuedDN : string;
  IssuerDN : string
}.

Record StoreCSVEntry := {
  ID : string;
  Type_ : string;
  Machine : string;
  Path : string;
  Thumbprints : gmap string bool;
  Serials : gmap string bool;
  Ids : gmap Z bool
}.

Record ROTAction := {
  StoreID : string;
  StoreType : string;
  StorePath : string;
  Thumbprint : string;
  CertID : Z;
  AddCert : bool;
  RemoveCert : bool
}.

Definition AuditHeader : list string :=
  ["Thumbprint"; "CertID"; "SubjectName"; "Issuer"; "StoreID"; "StoreType";
   "Machine"; "Path"; "AddCert"; "RemoveCert"; "Deployed"; "AuditDate"].

(** ** The Store Classifier: [isRootStore] *)

Record Counts := { leafCount : Z; keyCount : Z; certCount : Z }.

(** The body of the inner loop [for _, cert := range inv.Certificates]. *)
Definition countCert (inv : api.CertStoreInventory) (c : Counts)
    (cert : api.InventoriedCertificate) : Counts :=
  let leaf :=
    if bool_decide (api.IssuedDN cert ≠ api.IssuerDN cert)
    then (leafCount c + 1)%Z else leafCount c in
  let key :=
    if bool_decide (api.Parameters inv !! "PrivateKeyEntry" = Some "Yes")
    then (keyCount c + 1)%Z else keyCount c in
  {| leafCount := leaf; keyCount := key; certCount := certCount c |}.

(** The body of the outer loop [for _, inv := range *invs]. *)
Definition countInventory (c : Counts) (inv : api.CertStoreInventory) : Counts :=
  let c' := {| leafCount := leafCount c; keyCount := keyCount c;
               certCount := (certCount c + Z.of_nat (length (api.Certificates inv)))%Z |} in
  fold_left (countCert inv) (api.Certificates inv) c'.

Definition inventoryCounts (invs : list api.CertStoreInventory) : Counts :=
  fold_left countInventory invs {| leafCount := 0; keyCount := 0; certCount := 0 |}.

(** [isRootStore]; the store [st] is only logged and is left out. *)
Definition isRootStore (invs : list api.CertStoreInventory)
    (minCerts maxKeys maxLeaf : Z) : bool :=
  let c := inventoryCounts invs in
  if ((certCount c <? minCerts) && (0 <=? minCerts))%Z then false
  else if ((maxLeaf <? leafCount c) && (0 <=? maxLeaf))%Z then false
  else if ((maxKeys <? keyCount c) && (0 <=? maxKeys))%Z then false
  else true.

(** ** Collaborators *)

(** The order in which [for ... := range m] visits a Go map is chosen by the
    runtime and may change from one loop to the next.  [visit k l] is the
    order taken by the [k]-th range loop of a run over the entries [l]; all
    the engine may rely on is that every entry is visited once. *)
Record MapRange := {
  visit : ∀ A : Type, nat → list A → list A;
  visit_perm : ∀ (A : Type) (k : nat) (l : list A), visit A k l ≡ₚ l
}.

Arguments visit _ {A} _ _.

(** The runtime that visits every map in the order of [map_to_list]. *)
Definition rangeInOrder : MapRange :=
  {| visit := λ A _ l, l; visit_perm := λ A _ l, reflexivity l |}.

(** The runtime that visits every map backwards. *)
Definition rangeReversed : MapRange :=
  {| visit := λ A _ l, reverse l; visit_perm := λ A _ l, reverse_Permutation l |}.

(** The Keyfactor client ([*api.Client]): what each end point answers.
    [None] is a non-nil [error] for the look-ups; for the two state-changing
    end points [Some e] is the error [e] and [None] is success. *)
Record Client := {
  GetCertificateContext : string → option CertificateContext;
  GetCertificateStoreByID : string → option api.GetCertificateStoreResponse;
  GetCertStoreInventory : string → option (list api.CertStoreInventory);
  AddCertificateToStores : Z → string → option string;
  RemoveCertificateFromStores : Z → string → string → option string
}.

(** What a run does that can be observed from outside. *)
Inductive Event :=
  (** [kfClient.AddCertificateToStores] with certificate id and store id
      (overwrite and immediate scheduling are constants of the request) *)
  | CallAdd (certID : Z) (storeID : string)
  (** [kfClient.RemoveCertificateFromStores] with certificate id, store id
      and alias *)
  | CallRemove (certID : Z) (storeID : string) (alias : string)
  (** the message printed when an add or a remove request fails *)
  | PrintApplyError (a : ROTAction) (err : string)
  (** the dry-run notice of an action that was not applied *)
  | DryRunNotice (a : ROTAction)
  (** the message logged when a thumbprint cannot be resolved *)
  | LogCertLookupError (thumbprint : string).

Definition isCall (e : Event) : bool :=
  match e with
  | CallAdd _ _ | CallRemove _ _ _ => true
  | _ => false
  end.

(** The state-changing requests among the events of a run. *)
Definition calls (evs : list Event) : list Event := filter (λ e, isCall e = true) evs.

(** How a step of a command ends: with a value, in [log.Fatalf] (the
    process exits with the message), or in a run-time panic (an index out of
    range, a failed type assertion). *)
Inductive Run (A : Type) :=
  | Ok (a : A)
  | Fatal (msg : string)
  | Panic.

Arguments Ok {A} a.
Arguments Fatal {A} msg.
Arguments Panic {A}.

(** ** The Diff Engine: [generateAuditReport] *)

(** The variables of [generateAuditReport]: the returned table [data], the
    records handed to [csvWriter.Write], the [actions] map, the number of
    range loops over a map started so far, and the messages logged. *)
Record Report := {
  data : list (list string);
  csvFile : list (list string);
  actions : gmap string (list ROTAction);
  ranges : nat;
  logged : list Event
}.

(** [actions[cert] = append(actions[cert], a)]. *)
Definition appendAction (a : ROTAction) (m : gmap string (list ROTAction))
    : gmap string (list ROTAction) :=
  <[Thumbprint a := default [] (m !! Thumbprint a) ++ [a]]> m.

(** [data = append(data, row)] and [csvWriter.Write(row)], then the action
    of the row when it has one. *)
Definition emit (st : Report) (row : list string) (act : option ROTAction) : Report :=
  {| data := data st ++ [row];
     csvFile := csvFile st ++ [row];
     actions := from_option (λ a, appendAction a (actions st)) (actions st) act;
     ranges := ranges st;
     logged := logged st |}.

Definition mkAction (cert : string) (certID : Z) (store : StoreCSVEntry)
    (add remove : bool) : ROTAction :=
  {| StoreID := ID store; StoreType := Type_ store; StorePath := Path store;
     Thumbprint := cert; CertID := certID; AddCert := add; RemoveCert := remove |}.

Section DiffEngine.

Variable rt : MapRange.
Variable kfClient : Client.
(** [GetCurrentTime()], which is defined outside the files at hand: the
    time stamp read while the table holds [n] rows. *)
Variable GetCurrentTime : nat → string.

(** The body of [for _, store := range stores] in the add pass. *)
Definition addStore (cert : string) (certLookup : CertificateContext)
    (st : Report) (store : StoreCSVEntry) : Report :=
  let certID := Id certLookup in
  let certIDStr := strconv.Itoa certID in
  if bool_decide (is_Some (Thumbprints store !! cert)) then
    emit st [cert; certIDStr; IssuedDN certLookup; IssuerDN certLookup;
             ID store; Type_ store; Machine store; Path store;
             "false"; "false"; "true"; GetCurrentTime (length (data st))] None
  else
    emit st [cert; certIDStr; IssuedDN certLookup; IssuerDN certLookup;
             ID store; Type_ store; Machine store; Path store;
             "true"; "false"; "false"; GetCurrentTime (length (data st))]
         (Some (mkAction cert certID store true false)).

(** The body of [for _, store := range stores] in the remove pass. *)
Definition removeStore (cert : string) (certLookup : CertificateContext)
    (st : Report) (store : StoreCSVEntry) : Report :=
  let certID := Id certLookup in
  let certIDStr := strconv.Itoa certID in
  if bool_decide (is_Some (Thumbprints store !! cert)) then
    emit st [cert; certIDStr; ID store; Type_ store; Machine store; Path store;
             "false"; "true"; "true"]
         (Some (mkAction cert certID store false true))
  else
    emit st [cert; certIDStr; ID store; Type_ store; Machine store; Path store;
             "false"; "false"; "false"] None.

(** One range loop over the [stores] map. *)
Definition rangeStores (body : Report → StoreCSVEntry → Report)
    (stores : gmap string StoreCSVEntry) (st : Report) : Report :=
  let order := visit rt (ranges st) (map_to_list stores).*2 in
  fold_left body order
    {| data := data st; csvFile := csvFile st; actions := actions st;
       ranges := S (ranges st); logged := logged st |}.

(** The body of [for _, cert := range addCerts] (and of the loop over
    [removeCerts]): look the thumbprint up, skip it when that fails. *)
Definition certStep (body : string → CertificateContext → Report → StoreCSVEntry → Report)
    (stores : gmap string StoreCSVEntry) (st : Report) (cert : string) : Report :=
  match GetCertificateContext kfClient cert with
  | None =>
      {| data := data st; csvFile := csvFile st; actions := actions st;
         ranges := ranges st; logged := logged st ++ [LogCertLookupError cert] |}
  | Some certLookup => rangeStores (body cert certLookup) stores st
  end.

(** One range loop over a map of certificates. *)
Definition rangeCerts (body : string → CertificateContext → Report → StoreCSVEntry → Report)
    (certs : gmap string string) (stores : gmap string StoreCSVEntry)
    (st : Report) : Report :=
  let order := visit rt (ranges st) (map_to_list certs).*2 in
  fold_left (certStep body stores) order
    {| data := data st; csvFile := csvFile st; actions := actions st;
       ranges := S (ranges st); logged := logged st |}.

Definition generateAuditReport (addCerts removeCerts : gmap string string)
    (stores : gmap string StoreCSVEntry) : Report :=
  let st0 := {| data := [AuditHeader]; csvFile := [AuditHeader];
                actions := ∅; ranges := 0; logged := [] |} in
  rangeCerts removeStore removeCerts stores
    (rangeCerts addStore addCerts stores st0).

End DiffEngine.

(** ** The Reconciler: [reconcileRoots] *)

Section Reconciler.

Variable rt : MapRange.
Variable kfClient : Client.

(** The body of [for _, a := range action]. *)
Definition applyAction (dryRun : bool) (a : ROTAction) : list Event :=
  if AddCert a then
    if negb dryRun then
      CallAdd (CertID a) (StoreID a) ::
      match AddCertificateToStores kfClient (CertID a) (StoreID a) with
      | Some err => [PrintApplyError a err]
      | None => []
      end
    else [DryRunNotice a]
  else if RemoveCert a then
    if negb dryRun then
      CallRemove (CertID a) (StoreID a) (Thumbprint a) ::
      match RemoveCertificateFromStores kfClient (CertID a) (StoreID a) (Thumbprint a) with
      | Some err => [PrintApplyError a err]
      | None => []
      end
    else [DryRunNotice a]
  else [].

(** [reconcileRoots]: the events of the run and the returned [error]
    ([None] is [nil]).  [k] numbers the range loop over [actions]. *)
Definition reconcileRoots (k : nat) (actions : gmap string (list ROTAction))
    (dryRun : bool) : list Event * option string :=
  if bool_decide (size actions = 0) then ([], None)
  else
    let order := visit rt k (map_to_list actions) in
    (concat (map (λ '(thumbprint, action), concat (map (applyAction dryRun) action)) order),
     None).

End Reconciler.

(** ** The ledger read path: [reconcile --import-csv] *)

(** [csv.NewReader(f).ReadAll()] on a file holding the given records.  With
    the default [FieldsPerRecord = 0] every record must have as many fields
    as the first one; otherwise [ReadAll] returns [ErrFieldCount] ([None]).
    A file stands here for the records the reader parses from it; what
    [csv.Writer] leaves of the records it is given is [csvWritten]. *)
Definition csvReadAll (file : list (list string)) : option (list (list string)) :=
  match file with
  | [] => Some []
  | first :: _ =>
      if forallb (λ record, Nat.eqb (length record) (length first)) file
      then Some file else None
  end.

(** [records, _ := reader.ReadAll()], as the audit command, the reconcile
    command from files and [readCertsFile] read their files: the error is
    dropped, and beside an error [ReadAll] returns nil, so the records of a
    file with a record of another length are all lost.  A line without a
    field is no record: the reader skips empty lines. *)
Definition readAll (file : list (list string)) : list (list string) :=
  default [] (csvReadAll (filter (λ record, record ≠ []) file)).

(** A field as [csv.Reader] returns it after [csv.Writer] wrote it: the
    writer quotes a field that holds a line end, and the reader turns a
    carriage return followed by a line feed inside a quoted field into a
    line feed. *)
Fixpoint readBack (field : string) : string :=
  match field with
  | EmptyString => EmptyString
  | String a rest =>
      match rest with
      | String b _ =>
          if Ascii.eqb a "013" && Ascii.eqb b "010" then readBack rest
          else String a (readBack rest)
      | EmptyString => String a EmptyString
      end
  end.

(** The records [csv.Reader] parses from a file to which [csv.Writer] wrote
    the given records: a record without a field, or with one empty field,
    is written as an empty line, which the reader skips; the writer does
    not compare the lengths of the records. *)
Definition csvWritten (records : list (list string)) : list (list string) :=
  map (map readBack) (filter (λ record, record ≠ [] ∧ record ≠ [""]) records).

(** The [interface{}] values stored in the map of a row. *)
Inductive Value :=
  | VInt (n : Z)
  | VStr (s : string).

(** [fieldMap[i] = field] for every field of the header. *)
Definition fieldMap : gmap nat string :=
  fold_left (λ m '(i, field), <[i := field]> m) (imap pair AuditHeader) ∅.

(** The body of [for i, field := range row]; a missing key of [fieldMap]
    reads as the empty string. *)
Definition readField (action : gmap string Value) (p : nat * string)
    : gmap string Value :=
  let '(i, field) := p in
  match strconv.Atoi field with
  | None => <[default "" (fieldMap !! i) := VStr field]> action
  | Some fieldInt => <[default "" (fieldMap !! i) := VInt fieldInt]> action
  end.

Definition readRow (row : list string) : gmap string Value :=
  fold_left readField (imap pair row) ∅.

(** The type assertions [action[k].(string)] and [action[k].(int)]; [None]
    is the panic of a failed assertion (a missing key holds [nil]). *)
Definition assertString (v : option Value) : option string :=
  match v with
  | Some (VStr s) => Some s
  | _ => None
  end.

Definition assertInt (v : option Value) : option Z :=
  match v with
  | Some (VInt n) => Some n
  | _ => None
  end.

(** From [action := make(map[string]interface{})] to the [ROTAction] of the
    row; the error of [strconv.ParseBool] is dropped and the flag is then
    [false]. *)
Definition rowToAction (row : list string) : option ROTAction :=
  let action := readRow row in
  addText ← assertString (action !! "AddCert");
  removeText ← assertString (action !! "RemoveCert");
  let addCert := default false (strconv.ParseBool addText) in
  let removeCert := default false (strconv.ParseBool removeText) in
  storeID ← assertString (action !! "StoreID");
  storeType ← assertString (action !! "StoreType");
  storePath ← assertString (action !! "Path");
  thumbprint ← assertString (action !! "Thumbprint");
  certID ← assertInt (action !! "CertID");
  Some {| StoreID := storeID; StoreType := storeType; StorePath := storePath;
          Thumbprint := thumbprint; CertID := certID;
          AddCert := addCert; RemoveCert := removeCert |}.

(** [strings.EqualFold(strings.Join(row, ","), strings.Join(header, ","))]. *)
Definition isHeader (header row : list string) : bool :=
  strings.EqualFold (strings.Join row ",") (strings.Join header ",").

Record Loader := {
  validHeader : bool;
  loaded : gmap string (list ROTAction)
}.

(** The body of [for _, row := range inFile]. *)
Definition loadRow (l : Loader) (row : list string) : Run Loader :=
  if isHeader AuditHeader row then
    Ok {| validHeader := true; loaded := loaded l |}
  else if negb (validHeader l) then
    Fatal "[ERROR] Stores CSV file is missing a valid header"
  else
    match rowToAction row with
    | None => Panic
    | Some a => Ok {| validHeader := validHeader l; loaded := appendAction a (loaded l) |}
    end.

Fixpoint loadRows (inFile : list (list string)) (l : Loader) : Run Loader :=
  match inFile with
  | [] => Ok l
  | row :: rest =>
      match loadRow l row with
      | Ok l' => loadRows rest l'
      | Fatal msg => Fatal msg
      | Panic => Panic
      end
  end.

(** The actions map rebuilt from the records of an audit file. *)
Definition loadAudit (file : list (list string)) : Run (gmap string (list ROTAction)) :=
  match csvReadAll file with
  | None => Fatal "Error reading CSV file"
  | Some inFile =>
      match loadRows inFile {| validHeader := false; loaded := ∅ |} with
      | Ok l => Ok (loaded l)
      | Fatal msg => Fatal msg
      | Panic => Panic
      end
  end.

(** The branch [isCSV && reportFile != ""] of the [Run] function of
    [rotReconcileCmd]: load, then reconcile. *)
Definition reconcileImport (rt : MapRange) (kfClient : Client) (dryRun : bool)
    (file : list (list string)) : list Event * Run () :=
  match loadAudit file with
  | Ok actions =>
      if bool_decide (size actions = 0) then ([], Ok ())
      else
        match reconcileRoots rt kfClient 0 actions dryRun with
        | (evs, Some rErr) => (evs, Fatal "[ERROR] Error reconciling roots")
        | (evs, None) => (evs, Ok ())
        end
  | Fatal msg => ([], Fatal msg)
  | Panic => ([], Panic)
  end.

(** ** The other branch of [rotReconcileCmd]: stores and certificates from files *)

(** The loop of [readCertsFile] over the records [ReadAll] returned. *)
Fixpoint readCertEntries (certEntries : list (list string)) (certs : gmap string string)
    : Run (gmap string string) :=
  match certEntries with
  | [] => Ok certs
  | entry :: rest =>
      match entry with
      | [] => Panic
      | e0 :: _ =>
          if bool_decide (e0 ∈ ["CertID"; "thumbprint"; "id"; "CertId"; "Thumbprint"])
          then readCertEntries rest certs
          else readCertEntries rest (<[e0 := e0]> certs)
      end
  end.

(** [readCertsFile] as the commands call it: an empty path reads as no
    file ([None]) and leaves the map empty; otherwise the file is read with
    [ReadAll], whose error is dropped. *)
Definition readCertsFile (certsFile : option (list (list string))) : Run (gmap string string) :=
  match certsFile with
  | None => Ok ∅
  | Some file => readCertEntries (readAll file) ∅
  end.

Record StoreScan := {
  stores : gmap string StoreCSVEntry;
  lookupFailures : list string
}.

(** The Inventory Index: the entry stored for a root store, its three maps
    filled from every item of the inventory (a later item overwrites). *)
Definition indexStore (e0 e1 e2 e3 : string) (inventory : list api.CertStoreInventory)
    : StoreCSVEntry :=
  fold_left
    (λ s cert,
       {| ID := ID s; Type_ := Type_ s; Machine := Machine s; Path := Path s;
          Thumbprints := api.Thumbprints cert ∪ Thumbprints s;
          Serials := api.Serials cert ∪ Serials s;
          Ids := api.Ids cert ∪ Ids s |})
    inventory
    {| ID := e0; Type_ := e1; Machine := e2; Path := e3;
       Thumbprints := ∅; Serials := ∅; Ids := ∅ |}.

Section ReconcileFiles.

Variable rt : MapRange.
Variable kfClient : Client.
Variable GetCurrentTime : nat → string.
(** The flags [--min-certs], [--max-leaf-certs] and [--max-keys]. *)
Variables minCerts maxLeaves maxKeys : Z.

(** The body of [for i, entry := range storeEntries] of the reconcile
    command, where [storeEntries] are the records [ReadAll] returned.
    [isRootStore] is called with [maxLeaves] and [maxKeys] in
    this order, as the command does. *)
Definition scanStore (i : nat) (entry : list string) (s : StoreScan) : Run StoreScan :=
  match entry with
  | [] => Panic
  | e0 :: fields =>
      if bool_decide (e0 = "StoreID") || bool_decide (e0 = "StoreId") || Nat.eqb i 0 then Ok s
      else
        match GetCertificateStoreByID kfClient e0 with
        | None => Ok {| stores := stores s; lookupFailures := lookupFailures s ++ [e0] |}
        | Some apiResp =>
            match GetCertStoreInventory kfClient e0 with
            | None => Fatal "[ERROR] Error getting cert store inventory"
            | Some inventory =>
                if negb (isRootStore inventory minCerts maxLeaves maxKeys) then Ok s
                else
                  match fields with
                  | e1 :: e2 :: e3 :: _ =>
                      Ok {| stores := <[e0 := indexStore e0 e1 e2 e3 inventory]> (stores s);
                            lookupFailures := lookupFailures s |}
                  | _ => Panic
                  end
            end
        end
  end.

Fixpoint scanStores (i : nat) (storeEntries : list (list string)) (s : StoreScan)
    : Run StoreScan :=
  match storeEntries with
  | [] => Ok s
  | entry :: rest =>
      match scanStore i entry s with
      | Ok s' => scanStores (S i) rest s'
      | Fatal msg => Fatal msg
      | Panic => Panic
      end
  end.

Definition notFoundMessage (failures : list string) : string :=
  String.append "[ERROR] Error the following stores were not found: "
                (strings.Join failures ",").

(** The [else] branch of the [Run] function of [rotReconcileCmd]:
    [storeEntries, _ := reader.ReadAll()], the scan of these records, and
    the reconcile. *)
Definition reconcileFiles (dryRun : bool) (storesFile : list (list string))
    (addRootsFile removeRootsFile : option (list (list string)))
    : list Event * Run () :=
  match scanStores 0 (readAll storesFile) {| stores := ∅; lookupFailures := [] |} with
  | Fatal msg => ([], Fatal msg)
  | Panic => ([], Panic)
  | Ok s =>
      if bool_decide (0 < length (lookupFailures s)) then
        ([], Fatal (notFoundMessage (lookupFailures s)))
      else if bool_decide (size (stores s) = 0) then
        ([], Fatal "[ERROR] No root stores found. Exiting.")
      else
        match readCertsFile addRootsFile, readCertsFile removeRootsFile with
        | Ok certsToAdd, Ok certsToRemove =>
            let report :=
              generateAuditReport rt kfClient GetCurrentTime
                                  certsToAdd certsToRemove (stores s) in
            if bool_decide (size (actions report) = 0) then (logged report, Ok ())
            else
              match reconcileRoots rt kfClient (ranges report) (actions report) dryRun with
              | (evs, Some rErr) => (logged report ++ evs, Fatal "[ERROR] Error reconciling roots")
              | (evs, None) => (logged report ++ evs, Ok ())
              end
        | Ok _, Fatal msg | Fatal msg, _ => ([], Fatal msg)
        | _, _ => ([], Panic)
        end
  end.

End ReconcileFiles.

(** * Vocabulary of the properties *)

(** What one (thumbprint, store) pair contributes: its audit row and, when
    the pair needs a change, its action. *)
Definition Output : Type := list string * option ROTAction.

(** The pair written by the add pass for a resolved thumbprint and a store. *)
Definition addOutput (cert : string) (c : CertificateContext) (store : StoreCSVEntry)
    (now : string) : Output :=
  if bool_decide (is_Some (Thumbprints store !! cert)) then
    ([cert; strconv.Itoa (Id c); IssuedDN c; IssuerDN c;
      ID store; Type_ store; Machine store; Path store;
      "false"; "false"; "true"; now], None)
  else
    ([cert; strconv.Itoa (Id c); IssuedDN c; IssuerDN c;
      ID store; Type_ store; Machine store; Path store;
      "true"; "false"; "false"; now],
     Some (mkAction cert (Id c) store true false)).

(** The pair written by the remove pass. *)
Definition removeOutput (cert : string) (c : CertificateContext) (store : StoreCSVEntry)
    : Output :=
  if bool_decide (is_Some (Thumbprints store !! cert)) then
    ([cert; strconv.Itoa (Id c); ID store; Type_ store; Machine store; Path store;
      "false"; "true"; "true"],
     Some (mkAction cert (Id c) store false true))
  else
    ([cert; strconv.Itoa (Id c); ID store; Type_ store; Machine store; Path store;
      "false"; "false"; "false"], None).

(** The actions map built from a sequence of pairs: the action of each pair
    that has one is appended under its thumbprint, in order. *)
Definition replay (outs : list Output) : gmap string (list ROTAction) :=
  fold_left (λ m o, from_option (λ a, appendAction a m) m o.2) outs ∅.

(** A pair the add pass can produce in a run over the given maps. *)
Definition emittedAdd (kfClient : Client) (certs : gmap string string)
    (stores : gmap string StoreCSVEntry) (o : Output) : Prop :=
  ∃ cert c store now,
    cert ∈ (map_to_list certs).*2 ∧ GetCertificateContext kfClient cert = Some c
    ∧ store ∈ (map_to_list stores).*2 ∧ o = addOutput cert c store now.

(** A pair the remove pass can produce. *)
Definition emittedRemove (kfClient : Client) (certs : gmap string string)
    (stores : gmap string StoreCSVEntry) (o : Output) : Prop :=
  ∃ cert c store,
    cert ∈ (map_to_list certs).*2 ∧ GetCertificateContext kfClient cert = Some c
    ∧ store ∈ (map_to_list stores).*2 ∧ o = removeOutput cert c store.

(** The tables of a report are those of a sequence of pairs that satisfy [Q]. *)
Definition tablesOf (Q : Output → Prop) (st : Report) : Prop :=
  ∃ outs, data st = AuditHeader :: outs.*1 ∧ csvFile st = AuditHeader :: outs.*1
          ∧ actions st = replay outs ∧ Forall Q outs.

(** The data rows of a report: the table without its header. *)
Definition auditRows (rep : Report) : list (list string) := tail (data rep).

(** The thumbprints of a certificate map that the client cannot resolve,
    and those it can. *)
Definition unresolved (kfClient : Client) (certs : gmap string string) : list string :=
  filter (λ cert, GetCertificateContext kfClient cert = None) (map_to_list certs).*2.

Definition resolved (kfClient : Client) (certs : gmap string string) : list string :=
  filter (λ cert, is_Some (GetCertificateContext kfClient cert)) (map_to_list certs).*2.



(** The value a field of a row is stored as on import. *)
Definition parseField (field : string) : Value :=
  match strconv.Atoi field with
  | None => VStr field
  | Some fieldInt => VInt fieldInt
  end.

(** The text in column [j] of a row, when there is one and it does not
    read as an integer; the integer in column [j], when it reads as one. *)
Definition textAt (row : list string) (j : nat) : option string :=
  field ← row !! j; if strconv.Atoi field is None then Some field else None.

Definition intAt (row : list string) (j : nat) : option Z :=
  row !! j ≫= strconv.Atoi.

(** A row whose columns fit the fields of a [ROTAction]: text under
    Thumbprint, StoreID, StoreType, Path, AddCert and RemoveCert, an integer
    under CertID. *)
Definition mappable (row : list string) : Prop :=
  is_Some (textAt row 0) ∧ is_Some (intAt row 1) ∧ is_Some (textAt row 4)
  ∧ is_Some (textAt row 5) ∧ is_Some (textAt row 7)
  ∧ is_Some (textAt row 8) ∧ is_Some (textAt row 9).

(** A string that [strconv.Atoi] rejects, and so is kept as text on import. *)
Definition isText (s : string) : bool := bool_decide (strconv.Atoi s = None).

Definition isHexDigit (a : ascii) : bool :=
  let n := nat_of_ascii a in
  ((48 <=? n) && (n <=? 57) || (65 <=? n) && (n <=? 70) || (97 <=? n) && (n <=? 102))%nat.

(** A thumbprint: hexadecimal digits that do not read as an integer. *)
Definition isThumbprint (s : string) : bool :=
  forallb isHexDigit (list_ascii_of_string s) && isText s.

(** A string that is read back from a CSV file as it was written: it has
    no carriage return followed by a line feed. *)
Definition isPlain (s : string) : bool := bool_decide (readBack s = s).

(** The fields of a store that an action carries are text, and are read
    back from the audit file as they were written. *)
Definition storeIsText (store : StoreCSVEntry) : bool :=
  isText (ID store) && isText (Type_ store) && isText (Path store)
  && isPlain (ID store) && isPlain (Type_ store) && isPlain (Path store).

(** The certificate id the client answers for a thumbprint fits an [int]. *)
Definition idInRange (kfClient : Client) (cert : string) : bool :=
  match GetCertificateContext kfClient cert with
  | Some c => strconv.inRange (Id c)
  | None => true
  end.

Definition flagged (a : ROTAction) : bool := AddCert a || RemoveCert a.

(** An actions map without its no-op actions, and without the thumbprints
    that have no other action. *)
Definition prune (m : gmap string (list ROTAction)) : gmap string (list ROTAction) :=
  omap (λ l, match filter (λ a, flagged a = true) l with
             | [] => None
             | l' => Some l'
             end) m.

(** A pair whose row is read back as the action of the pair, or as a no-op
    action when the pair has none. *)
Definition faithful (o : Output) : Prop :=
  isHeader AuditHeader o.1 = false
  ∧ ∃ a, rowToAction o.1 = Some a ∧ o.2 = (if flagged a then Some a else None).




(** ** Concrete inputs used by the examples *)

Module Sample.

Definition rootCert : api.InventoriedCertificate :=
  {| api.IssuedDN := "CN=Root CA"; api.IssuerDN := "CN=Root CA" |}.

Definition issuingCert : api.InventoriedCertificate :=
  {| api.IssuedDN := "CN=Issuing CA"; api.IssuerDN := "CN=Root CA" |}.

(** An inventory item without a private key holding one root. *)
Definition rootItem : api.CertStoreInventory :=
  {| api.Certificates := [rootCert]; api.Parameters := {[ "PrivateKeyEntry" := "No" ]};
     api.Thumbprints := {[ "AAA111" := true ]}; api.Serials := ∅; api.Ids := ∅ |}.

(** One inventory item with a private key and a chain of two certificates. *)
Definition keyItem : api.CertStoreInventory :=
  {| api.Certificates := [issuingCert; rootCert];
     api.Parameters := {[ "PrivateKeyEntry" := "Yes" ]};
     api.Thumbprints := {[ "CCC333" := true ]}; api.Serials := ∅; api.Ids := ∅ |}.

(** A client that resolves every thumbprint but FFF000, finds every store
    but the one called missing, and whose add requests all fail. *)
Definition kfClient : Client :=
  {| GetCertificateContext := λ t,
       if bool_decide (t = "FFF000") then None
       else Some {| Id := 7; IssuedDN := "CN=Root CA"; IssuerDN := "CN=Root CA" |};
     GetCertificateStoreByID := λ s,
       if bool_decide (s = "missing") then None else Some {| api.Id := s |};
     GetCertStoreInventory := λ s, Some [rootItem];
     AddCertificateToStores := λ _ _, Some "connection refused";
     RemoveCertificateFromStores := λ _ _ _, None |}.

Definition GetCurrentTime (n : nat) : string := "2022-11-01 10:00:00 +0000 UTC".

(** A store that holds AAA111 and BBB222, and an empty one. *)
Definition store1 : StoreCSVEntry :=
  {| ID := "5d1b2e0c-s1"; Type_ := "PEM"; Machine := "host1"; Path := "/etc/ssl/roots.pem";
     Thumbprints := {[ "AAA111" := true; "BBB222" := true ]}; Serials := ∅; Ids := ∅ |}.

Definition store2 : StoreCSVEntry :=
  {| ID := "77aa01f3-s2"; Type_ := "PEM"; Machine := "host2"; Path := "/etc/ssl/roots.pem";
     Thumbprints := ∅; Serials := ∅; Ids := ∅ |}.

Definition oneStore : gmap string StoreCSVEntry := {[ "5d1b2e0c-s1" := store1 ]}.

Definition twoStores : gmap string StoreCSVEntry :=
  {[ "5d1b2e0c-s1" := store1; "77aa01f3-s2" := store2 ]}.

Definition addCerts : gmap string string :=
  {[ "AAA111" := "AAA111"; "FFF000" := "FFF000" ]}.

(** A data row whose AddCert column is not a boolean. *)
Definition oddRow : list string :=
  ["AAA111"; "7"; "CN=Root CA"; "CN=Root CA"; "5d1b2e0c-s1"; "PEM"; "host1";
   "/etc/ssl/roots.pem"; "banana"; "false"; "false"; "2022-11-01 10:00:00 +0000 UTC"].

(** A data row whose certificate id is not a number. *)
Definition badIdRow : list string :=
  ["AAA111"; "seven"; "CN=Root CA"; "CN=Root CA"; "5d1b2e0c-s1"; "PEM"; "host1";
   "/etc/ssl/roots.pem"; "true"; "false"; "false"; "2022-11-01 10:00:00 +0000 UTC"].

(** A stores file that names a store the client cannot find, and the
    same file without it. *)
Definition storeEntries : list (list string) :=
  [["StoreID"; "StoreType"; "StoreMachine"; "StorePath"; "ContainerId"; "ContainerName";
    "LastQueriedDate"];
   ["missing"; "PEM"; "host9"; "/etc/ssl/none.pem"; "12"; "Roots";
    "2022-11-01 10:00:00 +0000 UTC"];
   ["77aa01f3-s2"; "PEM"; "host2"; "/etc/ssl/roots.pem"; "12"; "Roots";
    "2022-11-01 10:00:00 +0000 UTC"]].

Definition foundEntries : list (list string) :=
  [["StoreID"; "StoreType"; "StoreMachine"; "StorePath"; "ContainerId"; "ContainerName";
    "LastQueriedDate"];
   ["77aa01f3-s2"; "PEM"; "host2"; "/etc/ssl/roots.pem"; "12"; "Roots";
    "2022-11-01 10:00:00 +0000 UTC"]].

Definition certsFile : list (list string) := [["Thumbprint"]; ["CCC333"]].

(** What the scan of [storeEntries] ends with. *)
Definition scanned : StoreScan :=
  {| stores := {[ "77aa01f3-s2" :=
                    indexStore "77aa01f3-s2" "PEM" "host2" "/etc/ssl/roots.pem"
                               [rootItem] ]};
     lookupFailures := ["missing"] |}.

End Sample.

(** * The rest of the commands *)

(** ** Vocabulary of the further properties *)

(** A certificate of an inventory that is not self-signed. *)
Definition isLeaf (cert : api.InventoriedCertificate) : Prop :=
  api.IssuedDN cert ≠ api.IssuerDN cert.

(** An inventory item whose parameters say it holds a private key. *)
Definition hasPrivateKey (inv : api.CertStoreInventory) : Prop :=
  api.Parameters inv !! "PrivateKeyEntry" = Some "Yes".

(** All the certificates of the items of an inventory. *)
Definition certificatesOf (invs : list api.CertStoreInventory)
    : list api.InventoriedCertificate :=
  concat (map api.Certificates invs).

(** The first fields that [readCertsFile] takes for a header. *)
Definition certHeaderNames : list string :=
  ["CertID"; "thumbprint"; "id"; "CertId"; "Thumbprint"].
(** The first field of every record of a file. *)
Definition firstFields (records : list (list string)) : list string := omap head records.

(** What the scan of a stores file knows about a store it keeps: the record
    it was read from, which is not the first one, and what the client
    answered for it. *)
Definition scannedFrom (kfClient : Client) (minCerts maxLeaves maxKeys : Z)
    (storeEntries : list (list string)) (k : string) (e : StoreCSVEntry) : Prop :=
  ∃ i e1 e2 e3 rest inventory,
    0 < i ∧ storeEntries !! i = Some (k :: e1 :: e2 :: e3 :: rest)
    ∧ k ≠ "StoreID" ∧ k ≠ "StoreId"
    ∧ is_Some (GetCertificateStoreByID kfClient k)
    ∧ GetCertStoreInventory kfClient k = Some inventory
    ∧ isRootStore inventory minCerts maxLeaves maxKeys = true
    ∧ e = indexStore k e1 e2 e3 inventory.

(** A pair without the time stamp of its row (the twelfth column). *)
Definition untimed (o : Output) : Output := (take 11 o.1, o.2).

(** One value for every thumbprint of a certificate map that the client
    resolves and every store of a store map. *)
Definition pairsOf {A} (kfClient : Client) (certs : gmap string string)
    (stores : gmap string StoreCSVEntry)
    (f : string → CertificateContext → StoreCSVEntry → A) : list A :=
  cert ← (map_to_list certs).*2;
  match GetCertificateContext kfClient cert with
  | Some c => f cert c <$> (map_to_list stores).*2
  | None => []
  end.

(** The tables of [st'] are those of [st] followed by a sequence of pairs. *)
Definition extends (st st' : Report) (outs : list Output) : Prop :=
  data st' = data st ++ outs.*1
  ∧ csvFile st' = csvFile st ++ outs.*1
  ∧ actions st' = fold_left (λ m o, from_option (λ a, appendAction a m) m o.2) outs
                            (actions st).

(** The actions of a list that stand under a thumbprint, in the order of
    the list; no entry when there is none. *)
Definition actionsFor (t : string) (acts : list ROTAction) : option (list ROTAction) :=
  match filter (λ a, Thumbprint a = t) acts with
  | [] => None
  | l => Some l
  end.

(** The action of a pair, when it has one, is that of its row: the first
    cell of the row is the thumbprint of the action and the second its
    certificate id. *)
Definition actionOfRow (o : Output) : Prop :=
  ∀ a, o.2 = Some a →
       head o.1 = Some (Thumbprint a) ∧ o.1 !! 1 = Some (strconv.Itoa (CertID a)).

(** The request [reconcileRoots] sends for an action when it is not a dry
    run: an add when [AddCert] is set, else a remove when [RemoveCert] is
    set, else none. *)
Definition requestOf (a : ROTAction) : option Event :=
  if AddCert a then Some (CallAdd (CertID a) (StoreID a))
  else if RemoveCert a then Some (CallRemove (CertID a) (StoreID a) (Thumbprint a))
  else None.

(** The actions announced by the dry-run notices of a run. *)
Definition noticed (evs : list Event) : list ROTAction :=
  omap (λ e, match e with DryRunNotice a => Some a | _ => None end) evs.

(** The actions of a map in the order in which the [k]-th range loop of a
    run meets them. *)
Definition actionsInOrder (rt : MapRange) (k : nat) (m : gmap string (list ROTAction))
    : list ROTAction :=
  concat (visit rt k (map_to_list m)).*2.

(** The records of a file that are not header lines. *)
Definition dataRows (file : list (list string)) : list (list string) :=
  filter (λ row, isHeader AuditHeader row = false) file.

(** What stands behind a request of a reconcile run over a store map and
    two certificate maps: an add goes to a store that lacks a thumbprint of
    the add map; a remove goes to a store that holds a thumbprint of the
    remove map, with the thumbprint as alias. *)
Definition justified (kfClient : Client) (addCerts removeCerts : gmap string string)
    (stores : gmap string StoreCSVEntry) (e : Event) : Prop :=
  ∃ cert c store,
    store ∈ (map_to_list stores).*2 ∧ GetCertificateContext kfClient cert = Some c
    ∧ ((e = CallAdd (Id c) (ID store) ∧ Thumbprints store !! cert = None
        ∧ cert ∈ (map_to_list addCerts).*2)
       ∨ (e = CallRemove (Id c) (ID store) cert ∧ is_Some (Thumbprints store !! cert)
          ∧ cert ∈ (map_to_list removeCerts).*2)).

(** ** The audit command: the [Run] function of [rotAuditCmd] *)

Definition StoreHeader : list string :=
  ["StoreID"; "StoreType"; "StoreMachine"; "StorePath"; "ContainerId"; "ContainerName";
   "LastQueriedDate"].

Definition CertHeader : list string :=
  ["Thumbprint"; "SubjectName"; "Issuer"; "CertID"; "Locations"; "LastQueriedDate"].

Module audit.

(** The variables of the loop over the stores file. *)
Record Scan := {
  validHeader : bool;
  stores : gmap string StoreCSVEntry
}.

Section Run.

Variable rt : MapRange.
Variable kfClient : Client.
(** The pointer [GetCertStoreInventory] returns beside a non-nil error
    ([None] is nil): the audit command logs the error and goes on with the
    pointer, which [isRootStore] dereferences. *)
Variable inventoryOnError : string → option (list api.CertStoreInventory).
Variable GetCurrentTime : nat → string.
Variables minCerts maxLeaves maxKeys : Z.

(** The body of [for _, entry := range storeEntries], where [storeEntries]
    are the records [ReadAll] returned.  A store that cannot
    be found is logged and skipped ([_ = append(lookupFailures, ...)] leaves
    the list as it is). *)
Definition scanStore (entry : list string) (s : Scan) : Run Scan :=
  if isHeader StoreHeader entry then Ok {| validHeader := true; stores := stores s |}
  else if negb (validHeader s) then
    Fatal "[ERROR] Stores CSV file is missing a valid header"
  else
    match entry with
    | [] => Panic
    | e0 :: fields =>
        match GetCertificateStoreByID kfClient e0 with
        | None => Ok s
        | Some apiResp =>
            let inventory :=
              match GetCertStoreInventory kfClient e0 with
              | Some inventory => Some inventory
              | None => inventoryOnError e0
              end in
            match inventory with
            | None => Panic
            | Some inventory =>
                if negb (isRootStore inventory minCerts maxLeaves maxKeys) then Ok s
                else
                  match fields with
                  | e1 :: e2 :: e3 :: _ =>
                      Ok {| validHeader := validHeader s;
                            stores := <[e0 := indexStore e0 e1 e2 e3 inventory]> (stores s) |}
                  | _ => Panic
                  end
            end
        end
    end.

Fixpoint scanStores (storeEntries : list (list string)) (s : Scan) : Run Scan :=
  match storeEntries with
  | [] => Ok s
  | entry :: rest =>
      match scanStore entry s with
      | Ok s' => scanStores rest s'
      | Fatal msg => Fatal msg
      | Panic => Panic
      end
  end.

(** The audit run: [storeEntries, _ := reader.ReadAll()], the scan of
    these records, and the report it writes. *)
Definition rotAudit (storesFile : list (list string))
    (addRootsFile removeRootsFile : option (list (list string))) : Run Report :=
  match scanStores (readAll storesFile) {| validHeader := false; stores := ∅ |} with
  | Fatal msg => Fatal msg
  | Panic => Panic
  | Ok s =>
      match readCertsFile addRootsFile, readCertsFile removeRootsFile with
      | Ok certsToAdd, Ok certsToRemove =>
          Ok (generateAuditReport rt kfClient GetCurrentTime
                                  certsToAdd certsToRemove (stores s))
      | Ok _, Fatal msg | Fatal msg, _ => Fatal msg
      | _, _ => Panic
      end
  end.

End Run.

End audit.

(** A record of a stores file that the audit command does not drop for a
    store that cannot be found: a header line, or a record whose store the
    client finds. *)
Definition storeFound (kfClient : Client) (entry : list string) : bool :=
  isHeader StoreHeader entry
  || match entry with
     | [] => true
     | e0 :: _ => bool_decide (is_Some (GetCertificateStoreByID kfClient e0))
     end.

(** A data record of a stores file as both commands take it: not a header
    line, and with a first field that the reconcile command does not take
    for a header. *)
Definition storeRecord (entry : list string) : Prop :=
  isHeader StoreHeader entry = false
  ∧ head entry ≠ Some "StoreID" ∧ head entry ≠ Some "StoreId".

(** ** The template command: the [Run] function of [rotGenStoreTemplateCmd] *)

Module template.

(** The parts of the replies of the Keyfactor client that the command
    reads; the package is not part of this repository. *)
Module StoreType.
Record Info := { StoreType : Z; ShortName : string }.
End StoreType.

Module Store.
Record Info := {
  Id : string;
  CertStoreType : Z;
  ClientMachine : string;
  StorePath : string;
  ContainerId : Z;
  ContainerName : string
}.
End Store.

Module Cert.
Record Location := { StoreMachine : string; StorePath : string }.
Record Info := {
  Thumbprint : string;
  IssuedCN : string;
  IssuerDN : string;
  Id : Z;
  Locations : list Location
}.
End Cert.

(** The end points the command calls.  [None] is a non-nil error for the
    two look-ups of a store type and for the list of all stores; for the
    stores of a container it is a nil pointer (the error beside it is only
    printed); the certificates of a query are a slice, empty when nil. *)
Record Client := {
  GetCertificateStoreTypeByName : string → option StoreType.Info;
  ListCertificateStores : option (list Store.Info);
  GetCertificateStoreByContainerID : string → option (list Store.Info);
  GetCertificateStoreType : Z → option StoreType.Info;
  ListCertificates : string → string → list Cert.Info
}.

(** The variables of the command. *)
Record State := {
  stID : Z;
  storeData : list Store.Info;
  csvStoreData : list (list string);
  csvCertData : list (list string);
  rowLookup : gmap string bool
}.

(** What the command has written when it returns: the records it gives to
    [csv.Writer.WriteAll], which flushes them to the file it created; or the
    string it gives to a [bufio.Writer] that it never flushes; or nothing.
    [os.Create] is taken to succeed. *)
Inductive File :=
  | Csv (records : list (list string))
  | Buffered (content : string)
  | Empty.

Section Run.

Variable kfClient : Client.
(** [GetCurrentTime()] read while the two tables hold [n] rows. *)
Variable GetCurrentTime : nat → string.
(** [fmt.Sprintf("%v", cert.Locations)]. *)
Variable formatLocations : list Cert.Location → string.

Definition now (st : State) : string :=
  GetCurrentTime (length (csvStoreData st) + length (csvCertData st)).

(** [storeData = append(storeData, store)] and, when the id has no row yet,
    the row of the store. *)
Definition addStoreRow (shortName : string) (st : State) (store : Store.Info) : State :=
  let st' := {| stID := stID st; storeData := storeData st ++ [store];
                csvStoreData := csvStoreData st; csvCertData := csvCertData st;
                rowLookup := rowLookup st |} in
  if negb (default false (rowLookup st !! Store.Id store)) then
    {| stID := stID st'; storeData := storeData st';
       csvStoreData := csvStoreData st ++
         [[Store.Id store; shortName; Store.ClientMachine store; Store.StorePath store;
           strconv.Itoa (Store.ContainerId store); Store.ContainerName store; now st]];
       csvCertData := csvCertData st;
       rowLookup := <[Store.Id store := true]> (rowLookup st) |}
  else st'.

(** The body of [for _, s := range storeType]. *)
Definition byStoreType (st : State) (s : string) : Run State :=
  match GetCertificateStoreTypeByName kfClient s with
  | None => Ok st
  | Some sType =>
      let st1 := {| stID := StoreType.StoreType sType; storeData := storeData st;
                    csvStoreData := csvStoreData st; csvCertData := csvCertData st;
                    rowLookup := rowLookup st |} in
      if (0 <=? stID st1)%Z then
        match ListCertificateStores kfClient with
        | None => Fatal "[ERROR] Error getting certificate stores"
        | Some stores =>
            Ok (fold_left
                  (λ st2 store,
                     if bool_decide (Store.CertStoreType store = stID st2)
                     then addStoreRow (StoreType.ShortName sType) st2 store else st2)
                  stores st1)
        end
      else Ok st1
  end.

(** The body of [for _, c := range containerType]. *)
Definition byContainer (st : State) (c : string) : State :=
  match GetCertificateStoreByContainerID kfClient c with
  | None => st
  | Some cStoresResp =>
      fold_left
        (λ st2 store,
           match GetCertificateStoreType kfClient (Store.CertStoreType store) with
           | None => st2
           | Some sType => addStoreRow (StoreType.ShortName sType) st2 store
           end)
        cStoresResp st
  end.

(** The row of a certificate, when its thumbprint has no row yet. *)
Definition addCertRow (locations : Cert.Info → string) (st : State) (cert : Cert.Info)
    : State :=
  if negb (default false (rowLookup st !! Cert.Thumbprint cert)) then
    {| stID := stID st; storeData := storeData st; csvStoreData := csvStoreData st;
       csvCertData := csvCertData st ++
         [[Cert.Thumbprint cert; Cert.IssuedCN cert; Cert.IssuerDN cert;
           strconv.Itoa (Cert.Id cert); locations cert; now st]];
       rowLookup := <[Cert.Thumbprint cert := true]> (rowLookup st) |}
  else st.

(** The body of [for _, c := range collection]. *)
Definition byCollection (st : State) (c : string) : State :=
  fold_left (addCertRow (λ cert, formatLocations (Cert.Locations cert)))
            (ListCertificates kfClient "collection" c) st.

(** [locationsFormatted]: one line for every location. *)
Definition locationsFormatted (cert : Cert.Info) : string :=
  fold_left
    (λ acc loc,
       String.append acc
         (String.append (Cert.StoreMachine loc)
            (String.append ":" (String.append (Cert.StorePath loc) (String "010" "")))))
    (Cert.Locations cert) "".

(** The body of [for _, s := range subjectName]. *)
Definition bySubject (st : State) (s : string) : State :=
  fold_left (addCertRow locationsFormatted) (ListCertificates kfClient "subject" s) st.

Fixpoint byStoreTypes (storeType : list string) (st : State) : Run State :=
  match storeType with
  | [] => Ok st
  | s :: rest =>
      match byStoreType st s with
      | Ok st' => byStoreTypes rest st'
      | Fatal msg => Fatal msg
      | Panic => Panic
      end
  end.

(** The tables gathered from the four multi-value flags. *)
Definition gather (storeType containerType collection subjectName : list string)
    : Run State :=
  match byStoreTypes storeType
          {| stID := -1; storeData := []; csvStoreData := []; csvCertData := [];
             rowLookup := ∅ |} with
  | Ok st1 =>
      Ok (fold_left bySubject subjectName
            (fold_left byCollection collection
               (fold_left byContainer containerType st1)))
  | Fatal msg => Fatal msg
  | Panic => Panic
  end.

(** [data] of the [csv] format: the header of the type, then its rows. *)
Definition csvData (templateType : string) (st : State) : list (list string) :=
  if bool_decide (templateType = "stores") then StoreHeader :: csvStoreData st
  else if bool_decide (templateType = "certs") then CertHeader :: csvCertData st
  else if bool_decide (templateType = "actions") then [AuditHeader]
  else [].

(** The run of the command: what it has written. *)
Definition rotGenStoreTemplate (templateType format : string)
    (storeType containerType collection subjectName : list string) : Run File :=
  match gather storeType containerType collection subjectName with
  | Ok st =>
      if bool_decide (format = "csv") then Ok (Csv (csvData templateType st))
      else if bool_decide (format = "json")
      then Ok (Buffered "StoreID,StoreType,StoreMachine,StorePath")
      else Ok Empty
  | Fatal msg => Fatal msg
  | Panic => Panic
  end.

End Run.

(** The tables of the command are well formed: a store row has the seven
    columns of the stores header, a certificate row the six of the
    certificates header, no first field stands in two rows, and every first
    field is marked in [rowLookup]. *)
Definition wellFormed (st : State) : Prop :=
  Forall (λ row, length row = 7) (csvStoreData st)
  ∧ Forall (λ row, length row = 6) (csvCertData st)
  ∧ NoDup (firstFields (csvStoreData st) ++ firstFields (csvCertData st))
  ∧ ∀ k, k ∈ firstFields (csvStoreData st) ++ firstFields (csvCertData st) →
         rowLookup st !! k = Some true.

End template.

(** ** Store types: [buildStoreTypePropertiesInterface] (cmd/storeTypes.go) *)

Module storeTypes.

#[local] Set Warnings "-register-all".

(** A value decoded by [json.Unmarshal] into an [interface{}]: nil, a
    bool, a float64 (kept as its 64 bits), a string, a slice or a map. *)
Inductive JSON :=
  | JNull
  | JBool (b : bool)
  | JNumber (bits : Z)
  | JString (s : string)
  | JArray (items : list JSON)
  | JObject (fields : gmap string JSON).

(** [api.StoreTypePropertyDefinition], with the fields the helper fills. *)
Record StoreTypePropertyDefinition := {
  Name : string;
  DisplayName : string;
  Type_ : string;
  DependsOn : string;
  DefaultValue : JSON;
  Required : bool
}.

(** The type assertions [.(string)] and [.(bool)] on the value of a key; a
    missing key holds nil, and a failed assertion panics ([None]). *)
Definition assertString (v : option JSON) : option string :=
  match v with
  | Some (JString s) => Some s
  | _ => None
  end.

Definition assertBool (v : option JSON) : option bool :=
  match v with
  | Some (JBool b) => Some b
  | _ => None
  end.

(** The body of [for _, prop := range properties]. *)
Definition buildProperty (prop : JSON) : option StoreTypePropertyDefinition :=
  match prop with
  | JObject p =>
      name ← assertString (p !! "Name");
      displayName ← assertString (p !! "DisplayName");
      type ← assertString (p !! "Type");
      dependsOn ← assertString (p !! "DependsOn");
      required ← assertBool (p !! "Required");
      Some {| Name := name; DisplayName := displayName; Type_ := type;
              DependsOn := dependsOn; DefaultValue := default JNull (p !! "DefaultValue");
              Required := required |}
  | _ => None
  end.

(** [buildStoreTypePropertiesInterface]: the definitions and the returned
    error ([None] is nil), or the panic of a failed assertion. *)
Fixpoint buildStoreTypePropertiesInterface (properties : list JSON)
    (output : list StoreTypePropertyDefinition)
    : Run (list StoreTypePropertyDefinition * option string) :=
  match properties with
  | [] => Ok (output, None)
  | prop :: rest =>
      match buildProperty prop with
      | Some definition => buildStoreTypePropertiesInterface rest (output ++ [definition])
      | None => Panic
      end
  end.

(** A property as the helper needs it: a map with strings under Name,
    DisplayName, Type and DependsOn and a bool under Required. *)
Definition wellTyped (prop : JSON) : Prop :=
  ∃ p, prop = JObject p
       ∧ is_Some (assertString (p !! "Name"))
       ∧ is_Some (assertString (p !! "DisplayName"))
       ∧ is_Some (assertString (p !! "Type"))
       ∧ is_Some (assertString (p !! "DependsOn"))
       ∧ is_Some (assertBool (p !! "Required")).

(** A definition holds the fields of the property it was built from. *)
Definition describes (prop : JSON) (d : StoreTypePropertyDefinition) : Prop :=
  ∃ p, prop = JObject p
       ∧ p !! "Name" = Some (JString (Name d))
       ∧ p !! "DisplayName" = Some (JString (DisplayName d))
       ∧ p !! "Type" = Some (JString (Type_ d))
       ∧ p !! "DependsOn" = Some (JString (DependsOn d))
       ∧ p !! "Required" = Some (JBool (Required d))
       ∧ DefaultValue d = default JNull (p !! "DefaultValue").

End storeTypes.

(** ** More concrete inputs *)

Module SampleTemplate.

Definition pemStore : template.Store.Info :=
  {| template.Store.Id := "77aa01f3-s2"; template.Store.CertStoreType := 3;
     template.Store.ClientMachine := "host2";
     template.Store.StorePath := "/etc/ssl/roots.pem";
     template.Store.ContainerId := 12; template.Store.ContainerName := "Roots" |}.

Definition jksStore : template.Store.Info :=
  {| template.Store.Id := "5d1b2e0c-s1"; template.Store.CertStoreType := 5;
     template.Store.ClientMachine := "host1";
     template.Store.StorePath := "/opt/app/trust.jks";
     template.Store.ContainerId := 12; template.Store.ContainerName := "Roots" |}.

(** A client that knows the store type PEM by name and the type 5 by id,
    lists the PEM store twice, and has one container. *)
Definition kfClient : template.Client :=
  {| template.GetCertificateStoreTypeByName := λ s,
       if bool_decide (s = "PEM")
       then Some {| template.StoreType.StoreType := 3; template.StoreType.ShortName := "PEM" |}
       else None;
     template.ListCertificateStores := Some [pemStore; jksStore; pemStore];
     template.GetCertificateStoreByContainerID := λ c,
       if bool_decide (c = "12") then Some [pemStore; jksStore] else None;
     template.GetCertificateStoreType := λ n,
       if bool_decide (n = 5%Z)
       then Some {| template.StoreType.StoreType := 5; template.StoreType.ShortName := "JKS" |}
       else None;
     template.ListCertificates := λ k v, [] |}.

Definition storesTemplate : list (list string) :=
  [StoreHeader;
   ["77aa01f3-s2"; "PEM"; "host2"; "/etc/ssl/roots.pem"; "12"; "Roots";
    "2022-11-01 10:00:00 +0000 UTC"];
   ["5d1b2e0c-s1"; "JKS"; "host1"; "/opt/app/trust.jks"; "12"; "Roots";
    "2022-11-01 10:00:00 +0000 UTC"]].

(** A property of a store type as it stands in the configuration file. *)
Definition property : storeTypes.JSON :=
  storeTypes.JObject
    {[ "Name" := storeTypes.JString "ServerUsername";
       "DisplayName" := storeTypes.JString "Server Username";
       "Type" := storeTypes.JString "Secret";
       "DependsOn" := storeTypes.JString "";
       "Required" := storeTypes.JBool false ]}.

Definition propertyDefinition : storeTypes.StoreTypePropertyDefinition :=
  {| storeTypes.Name := "ServerUsername"; storeTypes.DisplayName := "Server Username";
     storeTypes.Type_ := "Secret"; storeTypes.DependsOn := "";
     storeTypes.DefaultValue := storeTypes.JNull; storeTypes.Required := false |}.

End SampleTemplate.

(** * Properties *)

(** ** Facts about the library functions *)

Section StrconvFacts.

Lemma digits_string_of_uint (d : Decimal.uint) :
  d ≠ Decimal.Nil →
  strconv.digits (NilEmpty.string_of_uint d) = Some (Z.of_uint d)
  ∧ ∃ a r, NilEmpty.string_of_uint d = String a r
           ∧ Ascii.eqb a "-" = false ∧ Ascii.eqb a "+" = false.
Proof.
  intros Hd. split.
  - unfold strconv.digits.
    replace (NilEmpty.string_of_uint d) with (NilZero.string_of_uint d)
      by (by destruct d).
    by rewrite NilZero.usu.
  - destruct d; [done|..]; cbn; by eexists _, _.
Qed.

(** [Atoi] reads back what [Itoa] prints for an [int]. *)
Lemma Atoi_Itoa (n : Z) : strconv.intRange n → strconv.Atoi (strconv.Itoa n) = Some n.
Proof.
  intros Hn.
  assert (Hr : strconv.inRange n = true).
  { unfold strconv.inRange, strconv.intRange in *. apply andb_true_intro.
    split; apply Z.leb_le; lia. }
  unfold strconv.Itoa.
  destruct n as [|p|p]; [done|..]; cbn [Z.to_int NilZero.string_of_int].
  - destruct (digits_string_of_uint (Pos.to_uint p) (Unsigned.to_uint_nonnil p))
      as (Hdig & a & r & Hs & Hminus & Hplus).
    replace (NilZero.string_of_uint (Pos.to_uint p))
      with (NilEmpty.string_of_uint (Pos.to_uint p))
      by (pose proof (Unsigned.to_uint_nonnil p); by destruct (Pos.to_uint p)).
    rewrite Hs in *. unfold strconv.Atoi. rewrite Hminus, Hplus, Hdig.
    unfold Z.of_uint. rewrite Unsigned.of_to. cbn [Z.of_N]. by rewrite Hr.
  - destruct (digits_string_of_uint (Pos.to_uint p) (Unsigned.to_uint_nonnil p))
      as (Hdig & _).
    replace (NilZero.string_of_uint (Pos.to_uint p))
      with (NilEmpty.string_of_uint (Pos.to_uint p))
      by (pose proof (Unsigned.to_uint_nonnil p); by destruct (Pos.to_uint p)).
    unfold strconv.Atoi. cbn [Ascii.eqb Bool.eqb]. rewrite Hdig.
    unfold Z.of_uint. rewrite Unsigned.of_to.
    cbn [Z.of_N fmap option_fmap option_map Z.opp].
    change (- Z.pos p)%Z with (Z.neg p). by rewrite Hr.
Qed.

Lemma hex_digit_not_T (a : ascii) :
  isHexDigit a = true → strings.isAscii a = true ∧ strings.foldEqAscii a "T" = false.
Proof. destruct a as [[] [] [] [] [] [] [] []]; by vm_compute. Qed.

Lemma joined_header : ∃ t, strings.Join AuditHeader "," = String "T" t.
Proof. by eexists. Qed.

(** A row that starts with hexadecimal digits and has a second column is
    not a header line. *)
Lemma isHeader_thumbprint (cert second : string) (rest : list string) :
  forallb isHexDigit (list_ascii_of_string cert) = true →
  isHeader AuditHeader (cert :: second :: rest) = false.
Proof.
  intros Hhex. unfold isHeader. destruct joined_header as [t ->].
  cbn [strings.Join]. destruct cert as [|a cert].
  - done.
  - cbn in Hhex. apply andb_prop in Hhex as [Ha _].
    apply hex_digit_not_T in Ha as [Hascii Hfold].
    match goal with
    | |- context [String.append (String a cert) ?x] =>
        change (String.append (String a cert) x) with (String a (String.append cert x))
    end.
    cbn [strings.EqualFold]. by rewrite Hascii, Hfold.
Qed.

End StrconvFacts.

Lemma fold_left_invariant {A B} (P : B → Prop) (f : B → A → B) (l : list A) (b : B) :
  P b → (∀ x b', x ∈ l → P b' → P (f b' x)) → P (fold_left f l b).
Proof.
  revert b. induction l as [|x l IH]; intros b Hb Hstep; [done|].
  cbn [fold_left]. apply IH.
  - apply Hstep; [left|done].
  - intros y b' Hy. apply Hstep. by right.
Qed.

Lemma forallb_elem_of {A} (f : A → bool) (l : list A) (x : A) :
  forallb f l = true → x ∈ l → f x = true.
Proof. rewrite forallb_forall. intros Hl Hx. by apply Hl, list_elem_of_In. Qed.

(** ** The Store Classifier *)

Lemma isRootStore_true (invs : list api.CertStoreInventory) (minCerts maxKeys maxLeaf : Z) :
  isRootStore invs minCerts maxKeys maxLeaf = true ↔
    ((certCount (inventoryCounts invs) <? minCerts) && (0 <=? minCerts) = false
     ∧ (maxLeaf <? leafCount (inventoryCounts invs)) && (0 <=? maxLeaf) = false
     ∧ (maxKeys <? keyCount (inventoryCounts invs)) && (0 <=? maxKeys) = false)%Z.
Proof.
  unfold isRootStore.
  repeat destruct (_ && _)%Z; split; try done; intros (? & ? & ?); done.
Qed.

(** C5. [isRootStore] is a function of the inventory and the three
    thresholds, and a threshold set to -1 rejects nothing: an inventory
    accepted under (minCerts, maxKeys, maxLeaf) is still accepted when any
    one threshold is replaced with -1, and every inventory is accepted when
    all three are -1. *)
Theorem isRootStore_minus_one_weakens (invs : list api.CertStoreInventory)
    (minCerts maxKeys maxLeaf : Z) :
  isRootStore invs minCerts maxKeys maxLeaf = true →
  isRootStore invs (-1) maxKeys maxLeaf = true
  ∧ isRootStore invs minCerts (-1) maxLeaf = true
  ∧ isRootStore invs minCerts maxKeys (-1) = true
  ∧ isRootStore invs (-1) (-1) (-1) = true.
Proof.
  rewrite !isRootStore_true. intros (Hmin & Hleaf & Hkey).
  repeat split; try assumption; by rewrite andb_false_r.
Qed.

Lemma isRootStore_minus_one_weakens_witness :
  isRootStore [Sample.rootItem] 1 0 0 = true
  ∧ isRootStore [Sample.rootItem] (-1) 0 0 = true
  ∧ isRootStore [Sample.rootItem] 1 (-1) 0 = true
  ∧ isRootStore [Sample.rootItem] 1 0 (-1) = true
  ∧ isRootStore [Sample.rootItem] (-1) (-1) (-1) = true.
Proof.
  split; [reflexivity|].
  apply (isRootStore_minus_one_weakens [Sample.rootItem] 1 0 0). reflexivity.
Defined.

(** C4. The inventory of a store holding a single item flagged
    [PrivateKeyEntry = Yes] with a chain of two certificates: [isRootStore]
    counts two keys, one for each certificate of the flagged item, and so
    rejects the store under [maxKeys = 1]. *)
Theorem keyCount_counts_certificates_of_flagged_item :
  length [Sample.keyItem] = 1
  ∧ keyCount (inventoryCounts [Sample.keyItem]) = 2%Z
  ∧ isRootStore [Sample.keyItem] (-1) 1 (-1) = false.
Proof. repeat split. Qed.

(** ** The Reconciler *)

Section ReconcilerFacts.

Lemma calls_app (evs evs' : list Event) : calls (evs ++ evs') = calls evs ++ calls evs'.
Proof. apply filter_app. Qed.

Lemma calls_concat_map {A} (f g : A → list Event) (l : list A) :
  (∀ x, calls (f x) = calls (g x)) →
  calls (concat (map f l)) = calls (concat (map g l)).
Proof.
  intros Hfg. induction l as [|x l IH]; [done|].
  cbn [map concat]. by rewrite !calls_app, Hfg, IH.
Qed.

Lemma calls_concat_nil {A} (f : A → list Event) (l : list A) :
  (∀ x, calls (f x) = []) → calls (concat (map f l)) = [].
Proof.
  intros Hf. induction l as [|x l IH]; [done|].
  cbn [map concat]. by rewrite calls_app, Hf, IH.
Qed.

Lemma applyAction_dry_run kfClient (a : ROTAction) : calls (applyAction kfClient true a) = [].
Proof. unfold applyAction. by destruct (AddCert a), (RemoveCert a). Qed.

(** The requests of an action depend on the action alone, not on what
    the client answers. *)
Lemma applyAction_calls kfClient kfClient' dryRun (a : ROTAction) :
  calls (applyAction kfClient dryRun a) = calls (applyAction kfClient' dryRun a).
Proof.
  unfold applyAction.
  destruct (AddCert a), (RemoveCert a), dryRun; cbn [negb]; try done;
    unfold calls; rewrite !filter_cons_True by done; f_equal;
    repeat case_match; done.
Qed.

End ReconcilerFacts.

(** C3. With [dryRun = true], [reconcileRoots] sends no request to
    [AddCertificateToStores] or [RemoveCertificateFromStores], whatever the
    actions map holds, whatever the client and the order of the map. *)
Theorem reconcileRoots_dry_run_no_calls (rt : MapRange) (kfClient : Client) (k : nat)
    (actions : gmap string (list ROTAction)) :
  calls (reconcileRoots rt kfClient k actions true).1 = [].
Proof.
  unfold reconcileRoots. case_bool_decide; [done|]. cbn [fst].
  apply calls_concat_nil. intros [thumbprint action].
  apply calls_concat_nil. intros a. apply applyAction_dry_run.
Qed.

(** C10. [reconcileRoots] returns a nil error for every actions map, every
    client and both settings of [dryRun]; the requests it sends are the same
    whether the client reports success or failure for each of them, so a
    failed request stops nothing, and each failure is printed right after
    the request that failed. *)
Theorem reconcileRoots_returns_nil (rt : MapRange) (kfClient : Client) (k : nat)
    (actions : gmap string (list ROTAction)) (dryRun : bool) :
  (reconcileRoots rt kfClient k actions dryRun).2 = None
  ∧ (∀ kfClient' : Client,
       calls (reconcileRoots rt kfClient k actions dryRun).1
       = calls (reconcileRoots rt kfClient' k actions dryRun).1)
  ∧ (∀ a err,
       AddCert a = true →
       AddCertificateToStores kfClient (CertID a) (StoreID a) = Some err →
       applyAction kfClient false a = [CallAdd (CertID a) (StoreID a); PrintApplyError a err])
  ∧ (∀ a err,
       AddCert a = false → RemoveCert a = true →
       RemoveCertificateFromStores kfClient (CertID a) (StoreID a) (Thumbprint a) = Some err →
       applyAction kfClient false a
       = [CallRemove (CertID a) (StoreID a) (Thumbprint a); PrintApplyError a err]).
Proof.
  split; [|split; [|split]].
  - unfold reconcileRoots. by case_bool_decide.
  - intros kfClient'. unfold reconcileRoots. case_bool_decide; [done|]. cbn [fst].
    apply calls_concat_map. intros [thumbprint action].
    apply calls_concat_map. intros a. apply applyAction_calls.
  - intros a err Hadd Herr. unfold applyAction. by rewrite Hadd, Herr.
  - intros a err Hadd Hrem Herr. unfold applyAction. by rewrite Hadd, Hrem, Herr.
Qed.

(** ** The Diff Engine *)

Section DiffEngineFacts.

Variable rt : MapRange.
Variable kfClient : Client.
Variable GetCurrentTime : nat → string.

Implicit Types (st : Report) (stores : gmap string StoreCSVEntry)
  (certs : gmap string string) (outs : list Output).

Lemma addStore_emit cert c st store :
  addStore GetCurrentTime cert c st store
  = emit st (addOutput cert c store (GetCurrentTime (length (data st)))).1
            (addOutput cert c store (GetCurrentTime (length (data st)))).2.
Proof. unfold addStore, addOutput. by case_bool_decide. Qed.

Lemma removeStore_emit cert c st store :
  removeStore cert c st store
  = emit st (removeOutput cert c store).1 (removeOutput cert c store).2.
Proof. unfold removeStore, removeOutput. by case_bool_decide. Qed.

Lemma tablesOf_emit (Q : Output → Prop) st (o : Output) :
  tablesOf Q st → Q o → tablesOf Q (emit st o.1 o.2).
Proof.
  intros (outs & Hdata & Hcsv & Hact & Houts) Ho. exists (outs ++ [o]).
  unfold emit; cbn [data csvFile actions].
  rewrite Hdata, Hcsv, Hact, fmap_app. repeat split; try done.
  - unfold replay. by rewrite fold_left_app.
  - apply Forall_app. by split; [|apply Forall_singleton].
Qed.

Lemma tablesOf_mono (Q Q' : Output → Prop) st :
  (∀ o, Q o → Q' o) → tablesOf Q st → tablesOf Q' st.
Proof.
  intros HQ (outs & ? & ? & ? & Houts). exists outs. repeat split; try done.
  eapply Forall_impl; eauto.
Qed.

Lemma tablesOf_same (Q : Output → Prop) st1 st2 :
  data st1 = data st2 → csvFile st1 = csvFile st2 → actions st1 = actions st2 →
  tablesOf Q st1 → tablesOf Q st2.
Proof.
  intros Hd Hc Ha (outs & ? & ? & ? & ?). exists outs. by rewrite <- Hd, <- Hc, <- Ha.
Qed.

(** What holds before a pass, does not depend on the loop counter and the
    log, and is kept by the body of the inner loop, holds after the pass. *)
Lemma rangeCerts_invariant (P : Report → Prop)
    (body : string → CertificateContext → Report → StoreCSVEntry → Report)
    certs stores st :
  (∀ st1 st2, data st1 = data st2 → csvFile st1 = csvFile st2 →
              actions st1 = actions st2 → P st1 → P st2) →
  (∀ cert c st' store,
     cert ∈ (map_to_list certs).*2 → GetCertificateContext kfClient cert = Some c →
     store ∈ (map_to_list stores).*2 → P st' → P (body cert c st' store)) →
  P st → P (rangeCerts rt kfClient body certs stores st).
Proof.
  intros Hsame Hbody Hst. unfold rangeCerts.
  apply fold_left_invariant; [by eapply Hsame, Hst|].
  intros cert st' Hcert Hst'. rewrite (visit_perm rt) in Hcert.
  unfold certStep. destruct (GetCertificateContext kfClient cert) as [c|] eqn:Hc.
  - unfold rangeStores. apply fold_left_invariant; [by eapply Hsame, Hst'|].
    intros store st'' Hstore Hst''. rewrite (visit_perm rt) in Hstore.
    by apply Hbody.
  - by eapply Hsame, Hst'.
Qed.

(** Every report is the header followed by the rows of a sequence of
    pairs, each produced by the add pass or by the remove pass for a
    resolved thumbprint and a store of the map; the actions map is the one
    the actions of these pairs build, in the same order. *)
Lemma generateAuditReport_outputs addCerts removeCerts stores :
  tablesOf (λ o, emittedAdd kfClient addCerts stores o
                 ∨ emittedRemove kfClient removeCerts stores o)
           (generateAuditReport rt kfClient GetCurrentTime addCerts removeCerts stores).
Proof.
  unfold generateAuditReport.
  apply rangeCerts_invariant; [apply tablesOf_same| |].
  - intros cert c st' store Hcert Hc Hstore Hst'. rewrite removeStore_emit.
    apply tablesOf_emit; [done|]. right. by exists cert, c, store.
  - apply rangeCerts_invariant; [apply tablesOf_same| |].
    + intros cert c st' store Hcert Hc Hstore Hst'. rewrite addStore_emit.
      apply tablesOf_emit; [done|]. left. by eexists cert, c, store, _.
    + exists []. by repeat split.
Qed.

(** With nothing to remove, every pair comes from the add pass. *)
Lemma generateAuditReport_add_outputs addCerts stores :
  tablesOf (emittedAdd kfClient addCerts stores)
           (generateAuditReport rt kfClient GetCurrentTime addCerts ∅ stores).
Proof.
  eapply tablesOf_mono; [|apply generateAuditReport_outputs].
  intros o [?|(cert & ? & ? & Hcert & _)]; [done|].
  rewrite map_to_list_empty in Hcert. by apply elem_of_nil in Hcert.
Qed.

(** *** Counting rows *)

Lemma fold_left_rows {A} (body : Report → A → Report) (l : list A) st :
  (∀ st' x, length (data (body st' x)) = S (length (data st'))) →
  length (data (fold_left body l st)) = length (data st) + length l.
Proof.
  intros Hbody. revert st.
  induction l as [|x l IH]; intros st; cbn [fold_left length]; [lia|].
  rewrite IH, Hbody. lia.
Qed.

Lemma rangeStores_rows (body : Report → StoreCSVEntry → Report) stores st :
  (∀ st' store, length (data (body st' store)) = S (length (data st'))) →
  length (data (rangeStores rt body stores st)) = length (data st) + size stores.
Proof.
  intros Hbody. unfold rangeStores. rewrite fold_left_rows by done. cbn [data].
  by rewrite (visit_perm rt), length_fmap, length_map_to_list.
Qed.

Lemma certSteps_rows
    (body : string → CertificateContext → Report → StoreCSVEntry → Report)
    stores (l : list string) st :
  (∀ cert c st' store, length (data (body cert c st' store)) = S (length (data st'))) →
  length (data (fold_left (certStep rt kfClient body stores) l st))
  = length (data st)
    + size stores * length (filter (λ cert, is_Some (GetCertificateContext kfClient cert)) l).
Proof.
  intros Hbody. revert st. induction l as [|cert l IH]; intros st; cbn [fold_left].
  - rewrite filter_nil. cbn [length]. lia.
  - rewrite IH. unfold certStep.
    destruct (GetCertificateContext kfClient cert) as [c|] eqn:Hc.
    + rewrite filter_cons_True by (by rewrite Hc). cbn [length].
      rewrite rangeStores_rows by (intros; apply Hbody). lia.
    + rewrite filter_cons_False by (rewrite Hc; by intros []). done.
Qed.

Lemma rangeCerts_rows
    (body : string → CertificateContext → Report → StoreCSVEntry → Report)
    certs stores st :
  (∀ cert c st' store, length (data (body cert c st' store)) = S (length (data st'))) →
  length (data (rangeCerts rt kfClient body certs stores st))
  = length (data st) + size stores * length (resolved kfClient certs).
Proof.
  intros Hbody. unfold rangeCerts. rewrite certSteps_rows by done.
  cbn [data]. unfold resolved. by rewrite (visit_perm rt).
Qed.

Lemma resolved_unresolved certs :
  length (resolved kfClient certs) + length (unresolved kfClient certs) = size certs.
Proof.
  unfold resolved, unresolved.
  rewrite <- length_map_to_list, <- (length_fmap snd).
  induction ((map_to_list certs).*2) as [|cert l IH]; [done|].
  destruct (GetCertificateContext kfClient cert) as [c|] eqn:Hc.
  - rewrite filter_cons_True by (by rewrite Hc).
    rewrite (filter_cons_False (λ cert, _ = None)) by (by rewrite Hc).
    cbn [length]. lia.
  - rewrite filter_cons_False by (rewrite Hc; by intros []).
    rewrite (filter_cons_True (λ cert, _ = None)) by done.
    cbn [length]. lia.
Qed.

(** *** The log of unresolved thumbprints *)

Lemma rangeStores_logged (body : Report → StoreCSVEntry → Report) stores st :
  (∀ st' store, logged (body st' store) = logged st') →
  logged (rangeStores rt body stores st) = logged st.
Proof.
  intros Hbody. unfold rangeStores.
  apply (fold_left_invariant (λ st', logged st' = logged st)); [done|].
  intros store st' _ <-. apply Hbody.
Qed.

Lemma certSteps_logged
    (body : string → CertificateContext → Report → StoreCSVEntry → Report)
    stores (l : list string) st :
  (∀ cert c st' store, logged (body cert c st' store) = logged st') →
  logged (fold_left (certStep rt kfClient body stores) l st)
  = logged st
    ++ (LogCertLookupError <$> filter (λ cert, GetCertificateContext kfClient cert = None) l).
Proof.
  intros Hbody. revert st. induction l as [|cert l IH]; intros st; cbn [fold_left].
  - by rewrite filter_nil, app_nil_r.
  - rewrite IH. unfold certStep.
    destruct (GetCertificateContext kfClient cert) as [c|] eqn:Hc.
    + rewrite filter_cons_False by (by rewrite Hc).
      by rewrite rangeStores_logged by (intros; apply Hbody).
    + rewrite filter_cons_True by done. cbn [logged fmap list_fmap].
      by rewrite <- app_assoc.
Qed.

Lemma rangeCerts_logged
    (body : string → CertificateContext → Report → StoreCSVEntry → Report)
    certs stores st :
  (∀ cert c st' store, logged (body cert c st' store) = logged st') →
  logged (rangeCerts rt kfClient body certs stores st)
  ≡ₚ logged st ++ (LogCertLookupError <$> unresolved kfClient certs).
Proof.
  intros Hbody. unfold rangeCerts. rewrite certSteps_logged by done.
  cbn [logged]. unfold unresolved. by rewrite (visit_perm rt).
Qed.

(** Every thumbprint that cannot be resolved is logged, once for each
    list it stands in. *)
Lemma generateAuditReport_logged addCerts removeCerts stores :
  logged (generateAuditReport rt kfClient GetCurrentTime addCerts removeCerts stores)
  ≡ₚ LogCertLookupError <$> (unresolved kfClient addCerts ++ unresolved kfClient removeCerts).
Proof.
  unfold generateAuditReport.
  rewrite rangeCerts_logged by (intros; by rewrite removeStore_emit).
  rewrite rangeCerts_logged by (intros; by rewrite addStore_emit).
  cbn [logged app]. by rewrite fmap_app.
Qed.

End DiffEngineFacts.

Section OutputFacts.

Implicit Types (cert : string) (c : CertificateContext) (store : StoreCSVEntry)
  (outs : list Output).

Lemma addOutput_columns cert c store now : length (addOutput cert c store now).1 = 12.
Proof. unfold addOutput. by case_bool_decide. Qed.

Lemma removeOutput_columns cert c store : length (removeOutput cert c store).1 = 9.
Proof. unfold removeOutput. by case_bool_decide. Qed.



Lemma replay_lookup_None outs (m : gmap string (list ROTAction)) (t : string) :
  Forall (λ o : Output, ∀ a, o.2 = Some a → Thumbprint a ≠ t) outs →
  m !! t = None →
  fold_left (λ m o, from_option (λ a, appendAction a m) m o.2) outs m !! t = None.
Proof.
  intros Houts. revert m. induction Houts as [|[row [a|]] outs Ho _ IH]; intros m Hm.
  - done.
  - cbn [fold_left snd from_option]. apply IH.
    unfold appendAction. rewrite lookup_insert_ne; [done|]. by apply Ho.
  - cbn [fold_left snd from_option]. by apply IH.
Qed.

End OutputFacts.

(** C2. An audit run that removes BBB222 from a store holding it: the row
    written by the remove pass has nine columns, not the twelve of the
    header (subject, issuer and the time stamp are missing), so the values
    stand under the wrong names and the file can no longer be read back. *)
Theorem remove_pass_row_has_nine_columns :
  let rep := generateAuditReport rangeInOrder Sample.kfClient Sample.GetCurrentTime
               ∅ {[ "BBB222" := "BBB222" ]} Sample.oneStore in
  length AuditHeader = 12
  ∧ auditRows rep
    = [["BBB222"; "7"; "5d1b2e0c-s1"; "PEM"; "host1"; "/etc/ssl/roots.pem";
        "false"; "true"; "true"]]
  ∧ Forall (λ row, length row = 9) (auditRows rep)
  ∧ loadAudit (csvFile rep) = Fatal "Error reading CSV file".
Proof.
  cbv zeta. split; [done|]. split; [by vm_compute|].
  split; [by repeat constructor|by vm_compute].
Qed.


(** C7. An audit run writes one row for every store and every thumbprint of
    the add list and of the remove list that the client resolves: the table
    is the header followed by |S| * (|A| + |R|) rows less |S| rows for each
    unresolved thumbprint, and a thumbprint that is not resolved has no row
    and no action. *)
Theorem audit_rows_complete (rt : MapRange) (kfClient : Client)
    (GetCurrentTime : nat → string) (addCerts removeCerts : gmap string string)
    (stores : gmap string StoreCSVEntry) :
  let rep := generateAuditReport rt kfClient GetCurrentTime addCerts removeCerts stores in
  data rep = AuditHeader :: auditRows rep
  ∧ length (auditRows rep)
    = size stores * (size addCerts + size removeCerts)
      - size stores * (length (unresolved kfClient addCerts)
                       + length (unresolved kfClient removeCerts))
  ∧ length (auditRows rep)
    = size stores * (length (resolved kfClient addCerts)
                     + length (resolved kfClient removeCerts))
  ∧ (∀ cert, GetCertificateContext kfClient cert = None →
       actions rep !! cert = None
       ∧ Forall (λ row, head row ≠ Some cert) (auditRows rep)).
Proof.
  cbv zeta.
  destruct (generateAuditReport_outputs rt kfClient GetCurrentTime addCerts removeCerts stores)
    as (outs & Hdata & _ & Hact & Houts).
  assert (Hd : data (generateAuditReport rt kfClient GetCurrentTime addCerts removeCerts stores)
               = AuditHeader :: auditRows
                   (generateAuditReport rt kfClient GetCurrentTime addCerts removeCerts stores))
    by (unfold auditRows; by rewrite Hdata).
  assert (Hrows : length (auditRows
            (generateAuditReport rt kfClient GetCurrentTime addCerts removeCerts stores))
          = size stores * (length (resolved kfClient addCerts)
                           + length (resolved kfClient removeCerts))).
  { apply (f_equal length) in Hd. cbn [length] in Hd. revert Hd.
    unfold generateAuditReport at 1. rewrite !rangeCerts_rows.
    - cbn [data length]. lia.
    - intros. rewrite addStore_emit. cbn [emit data]. rewrite length_app. cbn. lia.
    - intros. rewrite removeStore_emit. cbn [emit data]. rewrite length_app. cbn. lia. }
  split; [|split; [|split]].
  - exact Hd.
  - rewrite Hrows, <- (resolved_unresolved kfClient addCerts),
      <- (resolved_unresolved kfClient removeCerts). lia.
  - exact Hrows.
  - intros cert Hnone. split.
    + rewrite Hact. apply replay_lookup_None; [|done].
      eapply Forall_impl; [exact Houts|]. cbn beta.
      intros o [(cert' & c & store & now & _ & Hc & _ & ->)|(cert' & c & store & _ & Hc & _ & ->)];
        intros a; unfold addOutput, removeOutput; case_bool_decide; cbn [snd];
        intros [= <-]; cbn [mkAction Thumbprint]; congruence.
    + unfold auditRows. rewrite Hdata. cbn [tail]. apply Forall_fmap.
      eapply Forall_impl; [exact Houts|]. cbn beta.
      intros o [(cert' & c & store & now & _ & Hc & _ & ->)|(cert' & c & store & _ & Hc & _ & ->)];
        unfold addOutput, removeOutput; case_bool_decide; cbn; congruence.
Qed.

(** ** The ledger read path *)

Section LedgerFacts.

Lemma indexed_lookup {A} (l : list A) (i : nat) :
  fold_left (λ (m : gmap nat A) '(i, x), <[i := x]> m) (imap pair l) ∅ !! i = l !! i.
Proof.
  induction l as [|x l IH] using rev_ind; [done|].
  rewrite imap_app, fold_left_app. cbn [imap fold_left].
  rewrite Nat.add_0_r. destruct (decide (i = length l)) as [->|Hne].
  - by rewrite lookup_insert_eq, list_lookup_middle.
  - rewrite lookup_insert_ne, IH by done.
    destruct (decide (i < length l)).
    + by rewrite lookup_app_l.
    + rewrite !lookup_ge_None_2; [done|rewrite length_app; cbn; lia|lia].
Qed.

Lemma fieldMap_lookup (i : nat) : fieldMap !! i = AuditHeader !! i.
Proof. apply indexed_lookup. Qed.

Lemma fieldMap_key (i j : nat) (name : string) :
  AuditHeader !! j = Some name → default "" (fieldMap !! i) = name → i = j.
Proof.
  rewrite fieldMap_lookup. intros Hj Hi.
  do 12 (destruct j as [|j];
         [injection Hj as <-;
          do 12 (destruct i as [|i]; [by vm_compute in Hi|]); by vm_compute in Hi|]).
  by vm_compute in Hj.
Qed.

Lemma readField_insert (action : gmap string Value) (i : nat) (field : string) :
  readField action (i, field) = <[default "" (fieldMap !! i) := parseField field]> action.
Proof. unfold readField, parseField. by destruct (strconv.Atoi field). Qed.

(** The value stored under a name of the header is the one read from the
    column of that name. *)
Lemma readRow_lookup (row : list string) (j : nat) (name : string) :
  AuditHeader !! j = Some name → readRow row !! name = parseField <$> row !! j.
Proof.
  intros Hj. unfold readRow. induction row as [|x row IH] using rev_ind.
  - cbn [imap fold_left]. by rewrite lookup_empty.
  - rewrite imap_app, fold_left_app. cbn [imap fold_left].
    rewrite Nat.add_0_r, readField_insert.
    destruct (decide (default "" (fieldMap !! length row) = name)) as [Hkey|Hkey].
    + rewrite Hkey, lookup_insert_eq.
      apply (fieldMap_key _ _ _ Hj) in Hkey. subst j.
      by rewrite list_lookup_middle.
    + rewrite lookup_insert_ne, IH by done.
      destruct (decide (j < length row)).
      * by rewrite lookup_app_l.
      * destruct (decide (j = length row)) as [->|].
        { exfalso. apply Hkey. by rewrite fieldMap_lookup, Hj. }
        rewrite !lookup_ge_None_2; [done|rewrite length_app; cbn; lia|lia].
Qed.

Lemma assertString_parseField (row : list string) (j : nat) :
  assertString (parseField <$> row !! j) = textAt row j.
Proof.
  unfold textAt, parseField. destruct (row !! j) as [field|]; [|done].
  cbn. by destruct (strconv.Atoi field).
Qed.

Lemma assertInt_parseField (row : list string) (j : nat) :
  assertInt (parseField <$> row !! j) = intAt row j.
Proof.
  unfold intAt, parseField. destruct (row !! j) as [field|]; [|done].
  cbn. by destruct (strconv.Atoi field).
Qed.

(** [rowToAction] read off the columns of the row. *)
Lemma rowToAction_columns (row : list string) :
  rowToAction row =
    addText ← textAt row 8;
    removeText ← textAt row 9;
    storeID ← textAt row 4;
    storeType ← textAt row 5;
    storePath ← textAt row 7;
    thumbprint ← textAt row 0;
    certID ← intAt row 1;
    Some {| StoreID := storeID; StoreType := storeType; StorePath := storePath;
            Thumbprint := thumbprint; CertID := certID;
            AddCert := default false (strconv.ParseBool addText);
            RemoveCert := default false (strconv.ParseBool removeText) |}.
Proof.
  unfold rowToAction.
  rewrite (readRow_lookup row 8 "AddCert"), (readRow_lookup row 9 "RemoveCert"),
    (readRow_lookup row 4 "StoreID"), (readRow_lookup row 5 "StoreType"),
    (readRow_lookup row 7 "Path"), (readRow_lookup row 0 "Thumbprint"),
    (readRow_lookup row 1 "CertID") by done.
  by rewrite !assertString_parseField, assertInt_parseField.
Qed.

Lemma rowToAction_mappable (row : list string) :
  is_Some (rowToAction row) ↔ mappable row.
Proof.
  rewrite rowToAction_columns. unfold mappable. split.
  - intros [a Ha].
    destruct (textAt row 8); [|done]. destruct (textAt row 9); [|done].
    destruct (textAt row 4); [|done]. destruct (textAt row 5); [|done].
    destruct (textAt row 7); [|done]. destruct (textAt row 0); [|done].
    destruct (intAt row 1); [|done]. by repeat split.
  - intros ([s0 ->] & [n1 ->] & [s4 ->] & [s5 ->] & [s7 ->] & [s8 ->] & [s9 ->]).
    done.
Qed.

Lemma textAt_Some (row : list string) (j : nat) (s : string) :
  row !! j = Some s → strconv.Atoi s = None → textAt row j = Some s.
Proof. intros Hj Hs. unfold textAt. rewrite Hj. cbn. by rewrite Hs. Qed.

Lemma intAt_Some (row : list string) (j : nat) (s : string) (n : Z) :
  row !! j = Some s → strconv.Atoi s = Some n → intAt row j = Some n.
Proof. intros Hj Hs. unfold intAt. rewrite Hj. done. Qed.

Lemma csvReadAll_Some (file inFile : list (list string)) :
  csvReadAll file = Some inFile → inFile = file.
Proof.
  unfold csvReadAll. destruct file as [|first rest]; [by intros [= <-]|].
  destruct (forallb _ _); [by intros [= <-]|done].
Qed.

Lemma csvReadAll_uniform (first : list string) (rest : list (list string)) :
  Forall (λ record, length record = length first) rest →
  csvReadAll (first :: rest) = Some (first :: rest).
Proof.
  intros Hrest. unfold csvReadAll.
  replace (forallb _ _) with true; [done|]. symmetry.
  apply forallb_forall. intros record [<-|Hin]; [apply Nat.eqb_refl|].
  apply Nat.eqb_eq. rewrite Forall_forall in Hrest. by apply Hrest, list_elem_of_In.
Qed.

Lemma loadRows_app (l1 l2 : list (list string)) (l : Loader) :
  loadRows (l1 ++ l2) l =
    match loadRows l1 l with
    | Ok l' => loadRows l2 l'
    | Fatal msg => Fatal msg
    | Panic => Panic
    end.
Proof.
  revert l. induction l1 as [|row l1 IH]; intros l; [done|].
  cbn [app loadRows]. by destruct (loadRow l row).
Qed.

(** The body of the loop on a row that is not a header line. *)
Lemma loadRow_data (l : Loader) (row : list string) :
  isHeader AuditHeader row = false →
  loadRow l row =
    if negb (validHeader l) then Fatal "[ERROR] Stores CSV file is missing a valid header"
    else match rowToAction row with
         | None => Panic
         | Some a => Ok {| validHeader := validHeader l;
                           loaded := appendAction a (loaded l) |}
         end.
Proof. intros Hrow. unfold loadRow. by rewrite Hrow. Qed.

(** The header flag is set by a header line only. *)
Lemma loadRows_validHeader (rows : list (list string)) (l l' : Loader) :
  loadRows rows l = Ok l' →
  Forall (λ r, isHeader AuditHeader r = false) rows →
  validHeader l' = validHeader l.
Proof.
  revert l. induction rows as [|row rows IH]; intros l Hload Hrows.
  - by injection Hload as <-.
  - apply Forall_cons in Hrows as [Hrow Hrows]. revert Hload.
    cbn [loadRows]. rewrite (loadRow_data l row Hrow).
    destruct (validHeader l) eqn:Hv; [|done]. cbn [negb].
    destruct (rowToAction row); [|done].
    intros Hload. apply IH in Hload; [|done]. by rewrite Hload.
Qed.

(** A load cannot get past a data row that stands before every header
    line, nor past one whose columns do not fit an action. *)
Lemma load_fails_at_row (file pre post : list (list string)) (row : list string) :
  file = pre ++ row :: post →
  isHeader AuditHeader row = false →
  Forall (λ r, isHeader AuditHeader r = false) pre ∨ ¬ mappable row →
  ∀ acts, loadAudit file ≠ Ok acts.
Proof.
  intros -> Hrow Hbad acts. unfold loadAudit.
  destruct (csvReadAll _) as [inFile|] eqn:Hread; [|done].
  apply csvReadAll_Some in Hread as ->.
  rewrite loadRows_app.
  destruct (loadRows pre _) as [l| |] eqn:Hpre; [|done..].
  cbn [loadRows]. rewrite (loadRow_data l row Hrow).
  destruct (validHeader l) eqn:Hv; [|done]. cbn [negb].
  destruct Hbad as [Hpre'|Hmap].
  - apply loadRows_validHeader in Hpre; [|done]. by rewrite Hv in Hpre.
  - destruct (rowToAction row) as [a|] eqn:Ha; [|done].
    exfalso. apply Hmap, rowToAction_mappable. by rewrite Ha.
Qed.

End LedgerFacts.

(** C8, as the code has it. A data row that stands before every header
    line, and a data row whose CertID is not an integer or whose Thumbprint,
    StoreID, StoreType, Path, AddCert or RemoveCert column is missing or
    reads as an integer, makes the whole load fail: no actions map comes out
    of it and the reconcile command sends no request.  Whether the text
    under AddCert and RemoveCert is a boolean is not part of the test. *)
Theorem load_rejects_early_and_unmappable_rows (file pre post : list (list string))
    (row : list string) :
  file = pre ++ row :: post →
  isHeader AuditHeader row = false →
  Forall (λ r, isHeader AuditHeader r = false) pre ∨ ¬ mappable row →
  (∀ acts, loadAudit file ≠ Ok acts)
  ∧ (∀ rt kfClient dryRun,
       (reconcileImport rt kfClient dryRun file).1 = []
       ∧ (reconcileImport rt kfClient dryRun file).2 ≠ Ok ()).
Proof.
  intros Hfile Hrow Hbad.
  pose proof (load_fails_at_row file pre post row Hfile Hrow Hbad) as Hload.
  split; [done|]. intros rt kfClient dryRun. unfold reconcileImport.
  destruct (loadAudit file) as [acts| |]; [by destruct (Hload acts)|done..].
Qed.

Lemma load_rejects_early_and_unmappable_rows_witness :
  isHeader AuditHeader Sample.badIdRow = false
  ∧ ¬ mappable Sample.badIdRow
  ∧ (∀ acts, loadAudit [AuditHeader; Sample.badIdRow] ≠ Ok acts)
  ∧ (∀ rt kfClient dryRun,
       (reconcileImport rt kfClient dryRun [AuditHeader; Sample.badIdRow]).1 = []
       ∧ (reconcileImport rt kfClient dryRun [AuditHeader; Sample.badIdRow]).2 ≠ Ok ()).
Proof.
  assert (Hmap : ¬ mappable Sample.badIdRow).
  { intros (_ & [n Hn] & _). vm_compute in Hn. discriminate. }
  split; [reflexivity|]. split; [exact Hmap|].
  apply (load_rejects_early_and_unmappable_rows
           [AuditHeader; Sample.badIdRow] [AuditHeader] [] Sample.badIdRow).
  - reflexivity.
  - reflexivity.
  - right. exact Hmap.
Defined.

(** C8, as it is stated, fails: a row after the header whose AddCert column
    holds a text that [strconv.ParseBool] rejects is loaded, with the flag
    read as false. *)
Lemma load_accepts_non_boolean_flag :
  strconv.ParseBool "banana" = None
  ∧ Sample.oddRow !! 8 = Some "banana"
  ∧ loadAudit [AuditHeader; Sample.oddRow]
    = Ok {[ "AAA111" := [ {| StoreID := "5d1b2e0c-s1"; StoreType := "PEM";
                             StorePath := "/etc/ssl/roots.pem"; Thumbprint := "AAA111";
                             CertID := 7; AddCert := false; RemoveCert := false |} ] ]}.
Proof. repeat split; by vm_compute. Qed.

(** ** Actions under their thumbprints *)

Section GroupFacts.

Lemma appendActions_lookup (acts : list ROTAction) (m : gmap string (list ROTAction))
    (t : string) :
  fold_left (λ m a, appendAction a m) acts m !! t
  = match filter (λ a, Thumbprint a = t) acts with
    | [] => m !! t
    | l => Some (default [] (m !! t) ++ l)
    end.
Proof.
  revert m. induction acts as [|a acts IH]; intros m; [done|].
  cbn [fold_left]. rewrite IH, filter_cons. unfold appendAction.
  case_decide as Ht.
  - clear IH. subst t. rewrite lookup_insert_eq. cbn [default from_option id].
    destruct (filter _ acts); [done|]. by rewrite <- app_assoc.
  - by rewrite lookup_insert_ne.
Qed.

Lemma replay_appendActions (outs : list Output) (m : gmap string (list ROTAction)) :
  fold_left (λ m o, from_option (λ a, appendAction a m) m o.2) outs m
  = fold_left (λ m a, appendAction a m) (omap snd outs) m.
Proof.
  revert m. induction outs as [|[row [a|]] outs IH]; intros m; [done|..];
    cbn [fold_left omap list_omap snd from_option]; apply IH.
Qed.

Lemma replay_lookup (outs : list Output) (t : string) :
  replay outs !! t = actionsFor t (omap snd outs).
Proof.
  unfold replay, actionsFor. rewrite replay_appendActions, appendActions_lookup.
  rewrite lookup_empty. by destruct (filter _ _).
Qed.

End GroupFacts.

(** ** Round trip through the audit file *)

Section RoundTrip.

Lemma prune_appendAction (a : ROTAction) (m : gmap string (list ROTAction)) :
  prune (appendAction a m) = if flagged a then appendAction a (prune m) else prune m.
Proof.
  apply map_eq. intros t. unfold prune at 1, appendAction at 1.
  rewrite lookup_omap. destruct (decide (Thumbprint a = t)) as [<-|Hne].
  - rewrite lookup_insert_eq. cbn [mbind option_bind]. rewrite filter_app.
    destruct (flagged a) eqn:Hf.
    + rewrite (filter_cons_True _ a) by done. rewrite filter_nil.
      unfold appendAction. rewrite lookup_insert_eq. unfold prune. rewrite lookup_omap.
      destruct (m !! Thumbprint a) as [l|]; cbn; [|done].
      by destruct (filter _ l).
    + rewrite (filter_cons_False _ a) by (by rewrite Hf). rewrite filter_nil, app_nil_r.
      unfold prune. rewrite lookup_omap. by destruct (m !! Thumbprint a).
  - rewrite lookup_insert_ne by done.
    destruct (flagged a).
    + unfold appendAction. rewrite lookup_insert_ne by done.
      unfold prune. by rewrite lookup_omap.
    + unfold prune. by rewrite lookup_omap.
Qed.

Lemma loadRows_faithful (outs : list Output) (l : Loader) :
  Forall faithful outs → validHeader l = true →
  ∃ l' acts, loadRows outs.*1 l = Ok l'
        ∧ Forall2 (λ row a, rowToAction row = Some a) outs.*1 acts
        ∧ loaded l' = fold_left (λ m a, appendAction a m) acts (loaded l)
        ∧ prune (loaded l')
          = fold_left (λ m o, from_option (λ a, appendAction a m) m o.2) outs
                      (prune (loaded l)).
Proof.
  intros Houts. revert l.
  induction Houts as [|[row act] outs (Hrow & a & Ha & Hact) _ IH]; intros l Hl.
  - exists l, []. by repeat split.
  - cbn [fmap list_fmap fst snd loadRows fold_left] in *.
    rewrite (loadRow_data l row Hrow), Hl, Ha. cbn [negb].
    destruct (IH {| validHeader := true; loaded := appendAction a (loaded l) |} eq_refl)
      as (l' & acts & Hload & Hacts & Hloaded & Hprune).
    exists l', (a :: acts). split; [done|]. split; [by constructor|].
    split; [done|]. rewrite Hprune. cbn [loaded snd].
    rewrite prune_appendAction, Hact. by destruct (flagged a).
Qed.

Lemma readBack_noCR (s : string) :
  forallb (λ a, negb (Ascii.eqb a "013")) (list_ascii_of_string s) = true →
  readBack s = s.
Proof.
  induction s as [|a rest IH]; [done|].
  cbn [list_ascii_of_string forallb]. intros [Ha Hrest]%andb_prop.
  apply negb_true_iff in Ha. specialize (IH Hrest).
  destruct rest as [|b rest']; [done|].
  change (readBack (String a (String b rest')))
    with (if Ascii.eqb a "013" && Ascii.eqb b "010" then readBack (String b rest')
          else String a (readBack (String b rest'))).
  by rewrite Ha, IH.
Qed.

Lemma hex_digit_not_CR (a : ascii) :
  isHexDigit a = true → negb (Ascii.eqb a "013") = true.
Proof. destruct a as [[] [] [] [] [] [] [] []]; by vm_compute. Qed.

Lemma readBack_hex (s : string) :
  forallb isHexDigit (list_ascii_of_string s) = true → readBack s = s.
Proof.
  intros Hhex. apply readBack_noCR. apply forallb_forall. intros a Ha.
  apply hex_digit_not_CR. revert Ha. by apply forallb_forall.
Qed.

Lemma string_of_uint_noCR (d : Decimal.uint) :
  forallb (λ a, negb (Ascii.eqb a "013"))
          (list_ascii_of_string (NilEmpty.string_of_uint d)) = true.
Proof. induction d; cbn; by rewrite ?IHd. Qed.

Lemma readBack_Itoa (n : Z) : readBack (strconv.Itoa n) = strconv.Itoa n.
Proof.
  apply readBack_noCR. unfold strconv.Itoa, NilZero.string_of_int, NilZero.string_of_uint.
  destruct (Z.to_int n) as [d|d]; destruct d; try done;
    cbn [list_ascii_of_string forallb]; apply (string_of_uint_noCR (_ d)) || idtac.
  all: try (cbn; by rewrite ?string_of_uint_noCR).
Qed.

(** A pair of the add pass whose row is read back from the audit file. *)
Lemma addOutput_faithful (cert : string) (c : CertificateContext)
    (store : StoreCSVEntry) (now : string) :
  isThumbprint cert = true → storeIsText store = true → strconv.inRange (Id c) = true →
  faithful (map readBack (addOutput cert c store now).1, (addOutput cert c store now).2).
Proof.
  unfold isThumbprint, storeIsText, isText, isPlain.
  intros [Hhex Hcert%bool_decide_eq_true]%andb_prop
         [[[[[Hid%bool_decide_eq_true Hty%bool_decide_eq_true]%andb_prop
              Hpath%bool_decide_eq_true]%andb_prop
             Hid'%bool_decide_eq_true]%andb_prop
            Hty'%bool_decide_eq_true]%andb_prop
           Hpath'%bool_decide_eq_true]%andb_prop Hrange.
  assert (Hint : strconv.Atoi (strconv.Itoa (Id c)) = Some (Id c)).
  { apply Atoi_Itoa. unfold strconv.inRange in Hrange.
    apply andb_prop in Hrange as [?%Z.leb_le ?%Z.leb_le]. by split. }
  assert (Htrue : readBack "true" = "true") by done.
  assert (Hfalse : readBack "false" = "false") by done.
  unfold addOutput. case_bool_decide; cbn [fst snd map];
    rewrite (readBack_hex cert Hhex), readBack_Itoa, Hid', Hty', Hpath', ?Htrue, ?Hfalse;
    (split; [by apply isHeader_thumbprint|]).
  - eexists. rewrite rowToAction_columns.
    rewrite (textAt_Some _ 8 "false"), (textAt_Some _ 9 "false"),
      (textAt_Some _ 4 (ID store)), (textAt_Some _ 5 (Type_ store)),
      (textAt_Some _ 7 (Path store)), (textAt_Some _ 0 cert),
      (intAt_Some _ 1 (strconv.Itoa (Id c)) (Id c)) by done.
    by split.
  - eexists. rewrite rowToAction_columns.
    rewrite (textAt_Some _ 8 "true"), (textAt_Some _ 9 "false"),
      (textAt_Some _ 4 (ID store)), (textAt_Some _ 5 (Type_ store)),
      (textAt_Some _ 7 (Path store)), (textAt_Some _ 0 cert),
      (intAt_Some _ 1 (strconv.Itoa (Id c)) (Id c)) by done.
    by split.
Qed.

(** The rows of twelve cells under the header are all read back. *)
Lemma csvWritten_rows (rows : list (list string)) :
  Forall (λ row, length row = 12) rows →
  csvWritten (AuditHeader :: rows) = AuditHeader :: map (map readBack) rows.
Proof.
  intros Hrows. unfold csvWritten. rewrite filter_cons_True by done.
  cbn [map]. f_equal. induction Hrows as [|row rows Hrow _ IH]; [done|].
  rewrite filter_cons_True by (by destruct row as [|? [|]]).
  cbn [map]. by rewrite IH.
Qed.

(** The audit file of an add list loads into one action for every row, and
    without its no-op actions the loaded map is the actions map of the
    audit. *)
Lemma add_audit_loads (rt : MapRange) (kfClient : Client)
    (GetCurrentTime : nat → string) (addCerts : gmap string string)
    (stores : gmap string StoreCSVEntry) :
  forallb isThumbprint (map_to_list addCerts).*2 = true →
  forallb (idInRange kfClient) (map_to_list addCerts).*2 = true →
  forallb storeIsText (map_to_list stores).*2 = true →
  ∃ (acts : gmap string (list ROTAction)) (rowActions : list ROTAction),
    loadAudit (csvWritten
                 (csvFile (generateAuditReport rt kfClient GetCurrentTime addCerts ∅ stores)))
    = Ok acts
    ∧ Forall2 (λ row a, rowToAction row = Some a)
        (tail (csvWritten
                 (csvFile (generateAuditReport rt kfClient GetCurrentTime addCerts ∅ stores))))
        rowActions
    ∧ (∀ t, acts !! t = actionsFor t rowActions)
    ∧ prune acts
      = actions (generateAuditReport rt kfClient GetCurrentTime addCerts ∅ stores).
Proof.
  intros Hthumbs Hids Hstores.
  destruct (generateAuditReport_add_outputs rt kfClient GetCurrentTime addCerts stores)
    as (outs & _ & Hcsv & Hact & Houts).
  rewrite Hcsv, Hact.
  set (back := λ o : Output, (map readBack o.1, o.2)).
  assert (Hfaithful : Forall faithful (back <$> outs)).
  { apply Forall_fmap. eapply Forall_impl; [exact Houts|]. cbn beta.
    intros o (cert & c & store & now & Hcert & Hc & Hstore & ->).
    apply addOutput_faithful.
    - by eapply forallb_elem_of.
    - by eapply forallb_elem_of.
    - apply (forallb_elem_of _ _ _ Hids) in Hcert. unfold idInRange in Hcert.
      by rewrite Hc in Hcert. }
  assert (Hrows : (back <$> outs).*1 = map (map readBack) outs.*1).
  { clear. induction outs as [|o outs IH]; [done|]. cbn. by rewrite <- IH. }
  assert (Hfold : ∀ m, fold_left (λ m o, from_option (λ a, appendAction a m) m o.2)
                                 (back <$> outs) m
                       = fold_left (λ m o, from_option (λ a, appendAction a m) m o.2) outs m).
  { clear. induction outs as [|o outs IH]; intros m; [done|]. cbn. by rewrite IH. }
  destruct (loadRows_faithful (back <$> outs) {| validHeader := true; loaded := ∅ |}
              Hfaithful eq_refl) as (l' & acts & Hload & Hacts & Hloaded & Hprune).
  rewrite Hrows in Hload, Hacts. rewrite Hfold in Hprune.
  rewrite csvWritten_rows.
  2:{ apply Forall_fmap. eapply Forall_impl; [exact Houts|]. cbn beta.
      intros o (cert & c & store & now & _ & _ & _ & ->). apply addOutput_columns. }
  exists (loaded l'), acts. split; [|split; [done|split]].
  - unfold loadAudit. rewrite csvReadAll_uniform.
    + cbn [loadRows]. unfold loadRow at 1.
      replace (isHeader AuditHeader AuditHeader) with true by (by vm_compute).
      cbn [loaded]. by rewrite Hload.
    + apply Forall_forall. intros row (row' & -> & Hin)%list_elem_of_fmap.
      rewrite length_map. apply list_elem_of_fmap in Hin as (o & -> & Hin).
      rewrite Forall_forall in Houts.
      destruct (Houts o Hin) as (cert & c & store & now & _ & _ & _ & ->).
      apply addOutput_columns.
  - intros t. rewrite Hloaded, appendActions_lookup. cbn [loaded].
    rewrite lookup_empty. unfold actionsFor. by destruct (filter _ _).
  - rewrite Hprune. cbn [loaded]. unfold prune. by rewrite omap_empty.
Qed.

End RoundTrip.

(** C1, as the code has it. For the rows of the add pass, with thumbprints
    that are hexadecimal text, store ids, types and paths that are text
    without a carriage return before a line feed, and certificate ids that
    fit an [int]: the audit file, as [csv.Reader] reads what [csv.Writer]
    wrote, loads; every data row of the file gives one action (a no-op
    action for a no-op row), and the loaded map holds these actions under
    their thumbprints in the order of the rows; without its no-op actions it
    is the actions map of the Diff Engine. *)
Theorem audit_file_round_trip (rt : MapRange) (kfClient : Client)
    (GetCurrentTime : nat → string) (addCerts : gmap string string)
    (stores : gmap string StoreCSVEntry) :
  forallb isThumbprint (map_to_list addCerts).*2 = true →
  forallb (idInRange kfClient) (map_to_list addCerts).*2 = true →
  forallb storeIsText (map_to_list stores).*2 = true →
  ∃ (acts : gmap string (list ROTAction)) (rowActions : list ROTAction),
    loadAudit (csvWritten
                 (csvFile (generateAuditReport rt kfClient GetCurrentTime addCerts ∅ stores)))
    = Ok acts
    ∧ Forall2 (λ row a, rowToAction row = Some a)
        (tail (csvWritten
                 (csvFile (generateAuditReport rt kfClient GetCurrentTime addCerts ∅ stores))))
        rowActions
    ∧ (∀ t, acts !! t = actionsFor t rowActions)
    ∧ prune acts
      = actions (generateAuditReport rt kfClient GetCurrentTime addCerts ∅ stores).
Proof. apply add_audit_loads. Qed.

Lemma audit_file_round_trip_witness :
  forallb isThumbprint (map_to_list Sample.addCerts).*2 = true
  ∧ forallb (idInRange Sample.kfClient) (map_to_list Sample.addCerts).*2 = true
  ∧ forallb storeIsText (map_to_list Sample.twoStores).*2 = true
  ∧ ∃ (acts : gmap string (list ROTAction)) (rowActions : list ROTAction),
      loadAudit (csvWritten
                   (csvFile (generateAuditReport rangeReversed Sample.kfClient
                               Sample.GetCurrentTime Sample.addCerts ∅ Sample.twoStores)))
      = Ok acts
      ∧ Forall2 (λ row a, rowToAction row = Some a)
          (tail (csvWritten
                   (csvFile (generateAuditReport rangeReversed Sample.kfClient
                               Sample.GetCurrentTime Sample.addCerts ∅ Sample.twoStores))))
          rowActions
      ∧ (∀ t, acts !! t = actionsFor t rowActions)
      ∧ prune acts
        = actions (generateAuditReport rangeReversed Sample.kfClient
                     Sample.GetCurrentTime Sample.addCerts ∅ Sample.twoStores).
Proof.
  split; [reflexivity|]. split; [reflexivity|]. split; [reflexivity|].
  apply (audit_file_round_trip rangeReversed Sample.kfClient Sample.GetCurrentTime
           Sample.addCerts Sample.twoStores);
    reflexivity.
Defined.

(** C1, as it is stated, fails: AAA111 is to be added to a store that holds
    it already, so the Diff Engine has no action; the audit file has one
    no-op row, and loading it gives a map with an action under AAA111. *)
Lemma import_adds_no_op_actions :
  let rep := generateAuditReport rangeInOrder Sample.kfClient Sample.GetCurrentTime
               {[ "AAA111" := "AAA111" ]} ∅ Sample.oneStore in
  actions rep = ∅
  ∧ loadAudit (csvWritten (csvFile rep))
    = Ok {[ "AAA111" := [ {| StoreID := "5d1b2e0c-s1"; StoreType := "PEM";
                             StorePath := "/etc/ssl/roots.pem"; Thumbprint := "AAA111";
                             CertID := 7; AddCert := false; RemoveCert := false |} ] ]}
  ∧ loadAudit (csvWritten (csvFile rep)) ≠ Ok (actions rep).
Proof.
  cbv zeta. split; [by vm_compute|]. split; [by vm_compute|].
  intros Heq. vm_compute in Heq. discriminate.
Qed.

(** ** Look-up failures *)






(** * Further properties of the code *)

Local Set Warnings "-clear-no-such-hyp".

(** ** The Store Classifier: counters and thresholds *)

Section ClassifierFacts.

Lemma countCert_fold (inv : api.CertStoreInventory)
    (certs : list api.InventoriedCertificate) (c : Counts) :
  leafCount (fold_left (countCert inv) certs c)
    = (leafCount c + Z.of_nat (length (filter isLeaf certs)))%Z
  ∧ keyCount (fold_left (countCert inv) certs c)
    = (keyCount c + (if bool_decide (hasPrivateKey inv) then Z.of_nat (length certs) else 0))%Z
  ∧ certCount (fold_left (countCert inv) certs c) = certCount c.
Proof.
  revert c. induction certs as [|cert certs IH]; intros c.
  - cbn. case_bool_decide; repeat split; lia.
  - cbn [fold_left]. destruct (IH (countCert inv c cert)) as (-> & -> & ->).
    unfold countCert, hasPrivateKey, isLeaf. cbn [leafCount keyCount certCount].
    rewrite filter_cons. repeat case_bool_decide; try done; case_decide; try done;
      cbn [length]; repeat split; lia.
Qed.

Lemma countInventory_fold (invs : list api.CertStoreInventory) (c : Counts) :
  leafCount (fold_left countInventory invs c)
    = (leafCount c + Z.of_nat (length (filter isLeaf (certificatesOf invs))))%Z
  ∧ keyCount (fold_left countInventory invs c)
    = (keyCount c
       + Z.of_nat (length (certificatesOf (filter hasPrivateKey invs))))%Z
  ∧ certCount (fold_left countInventory invs c)
    = (certCount c + Z.of_nat (length (certificatesOf invs)))%Z.
Proof.
  revert c. induction invs as [|inv invs IH]; intros c.
  - cbn. repeat split; lia.
  - cbn [fold_left]. destruct (IH (countInventory c inv)) as (-> & -> & ->).
    unfold countInventory.
    destruct (countCert_fold inv (api.Certificates inv)
                {| leafCount := leafCount c; keyCount := keyCount c;
                   certCount := certCount c + Z.of_nat (length (api.Certificates inv)) |})
      as (-> & -> & ->).
    cbn [leafCount keyCount certCount]. unfold certificatesOf.
    cbn [map concat]. rewrite filter_app, !length_app, filter_cons.
    case_bool_decide; case_decide; try done; cbn [map concat];
      rewrite ?length_app; repeat split; lia.
Qed.

End ClassifierFacts.

(** X1. The counters of [isRootStore] in closed form: [certCount] is the
    number of certificates of all the items of the inventory, [leafCount]
    the number of those whose issued and issuer names differ, and
    [keyCount] the number of certificates of the items whose parameters
    hold PrivateKeyEntry = Yes.  Neither [leafCount] nor [keyCount] is
    negative or exceeds [certCount]. *)
Theorem inventoryCounts_closed_form (invs : list api.CertStoreInventory) :
  certCount (inventoryCounts invs) = Z.of_nat (length (certificatesOf invs))
  ∧ leafCount (inventoryCounts invs)
    = Z.of_nat (length (filter isLeaf (certificatesOf invs)))
  ∧ keyCount (inventoryCounts invs)
    = Z.of_nat (length (certificatesOf (filter hasPrivateKey invs)))
  ∧ (0 ≤ leafCount (inventoryCounts invs) ≤ certCount (inventoryCounts invs))%Z
  ∧ (0 ≤ keyCount (inventoryCounts invs) ≤ certCount (inventoryCounts invs))%Z.
Proof.
  unfold inventoryCounts.
  destruct (countInventory_fold invs {| leafCount := 0; keyCount := 0; certCount := 0 |})
    as (-> & -> & ->).
  cbn [leafCount keyCount certCount]. rewrite !Z.add_0_l.
  repeat split; try lia.
  - apply Nat2Z.inj_le, length_filter.
  - apply Nat2Z.inj_le. unfold certificatesOf.
    induction invs as [|inv invs IH]; [done|].
    rewrite filter_cons. case_decide; cbn [map concat]; rewrite !length_app; lia.
Qed.

(** X2. [isRootStore] is monotone in its thresholds: an inventory that
    is accepted stays accepted when the minimum of certificates is lowered
    and the two maxima, which are not negative, are raised. *)
Theorem isRootStore_monotone (invs : list api.CertStoreInventory)
    (minCerts maxKeys maxLeaf minCerts' maxKeys' maxLeaf' : Z) :
  (minCerts' ≤ minCerts)%Z → (0 ≤ maxKeys ≤ maxKeys')%Z → (0 ≤ maxLeaf ≤ maxLeaf')%Z →
  isRootStore invs minCerts maxKeys maxLeaf = true →
  isRootStore invs minCerts' maxKeys' maxLeaf' = true.
Proof.
  intros Hmin Hkeys Hleaf. rewrite !isRootStore_true.
  rewrite !andb_false_iff, !Z.ltb_ge, !Z.leb_gt. lia.
Qed.

Lemma isRootStore_monotone_witness :
  isRootStore [Sample.keyItem] 1 2 1 = true ∧ isRootStore [Sample.keyItem] 0 5 3 = true.
Proof.
  split; [reflexivity|].
  apply (isRootStore_monotone [Sample.keyItem] 1 2 1 0 5 3); [lia|lia|lia|reflexivity].
Defined.

(** X3. An inventory without any certificate is accepted by
    [isRootStore] exactly when the minimum of certificates is at most 0,
    whatever the two maxima are. *)
Theorem isRootStore_empty_inventory (invs : list api.CertStoreInventory)
    (minCerts maxKeys maxLeaf : Z) :
  certificatesOf invs = [] →
  isRootStore invs minCerts maxKeys maxLeaf = true ↔ (minCerts ≤ 0)%Z.
Proof.
  intros Hempty. rewrite isRootStore_true. unfold inventoryCounts.
  destruct (countInventory_fold invs {| leafCount := 0; keyCount := 0; certCount := 0 |})
    as (-> & -> & ->).
  assert (certificatesOf (filter hasPrivateKey invs) = []) as ->.
  { revert Hempty. unfold certificatesOf. induction invs as [|inv invs IH]; [done|].
    cbn [map concat]. intros [Hinv Hinvs]%app_eq_nil. rewrite filter_cons.
    case_decide; cbn [map concat]; rewrite ?Hinv; by apply IH. }
  rewrite Hempty. cbn [length filter leafCount keyCount certCount].
  rewrite !andb_false_iff, !Z.ltb_ge, !Z.leb_gt. cbn. lia.
Qed.

Lemma isRootStore_empty_inventory_witness :
  certificatesOf [] = [] ∧ (isRootStore [] 0 0 0 = true ↔ (0 ≤ 0)%Z).
Proof. split; [reflexivity|]. apply (isRootStore_empty_inventory [] 0 0 0). reflexivity. Defined.

(** ** The certificate files: [readCertsFile] *)

Section CertsFileFacts.

Lemma firstFields_cons (e0 : string) (fields : list string) (rest : list (list string)) :
  firstFields ((e0 :: fields) :: rest) = e0 :: firstFields rest.
Proof. done. Qed.

Lemma readCertEntries_spec (certEntries : list (list string)) (certs0 : gmap string string) :
  ([] ∈ certEntries → readCertEntries certEntries certs0 = Panic)
  ∧ ([] ∉ certEntries →
     ∃ certs, readCertEntries certEntries certs0 = Ok certs
       ∧ ∀ k v, certs !! k = Some v ↔
           (v = k ∧ (k ∉ certHeaderNames) ∧ k ∈ firstFields certEntries)
           ∨ (certs0 !! k = Some v
              ∧ ¬ ((k ∉ certHeaderNames) ∧ k ∈ firstFields certEntries))).
Proof.
  revert certs0. induction certEntries as [|entry rest IH]; intros certs0.
  - split; [by intros ?%elem_of_nil|]. intros _. exists certs0. split; [done|].
    intros k v. cbn. rewrite elem_of_nil. naive_solver.
  - destruct entry as [|e0 fields].
    + split; [done|]. intros []. left.
    + cbn [readCertEntries]. fold certHeaderNames. rewrite firstFields_cons.
      destruct (IH certs0) as [Hpanic0 Hok0].
      destruct (IH (<[e0 := e0]> certs0)) as [Hpanic1 Hok1].
      split.
      { intros [?|?]%elem_of_cons; [done|]. case_bool_decide; auto. }
      intros Hnot. assert ([] ∉ rest) as Hrest by (intros ?; apply Hnot; by right).
      case_bool_decide as Hhdr.
      * destruct (Hok0 Hrest) as (certs & -> & Hcerts).
        exists certs. split; [done|]. intros k v. rewrite Hcerts, elem_of_cons.
        destruct (decide (k = e0)) as [->|]; naive_solver.
      * destruct (Hok1 Hrest) as (certs & -> & Hcerts).
        exists certs. split; [done|]. intros k v. rewrite Hcerts, elem_of_cons.
        destruct (decide (k = e0)) as [->|Hne].
        { rewrite lookup_insert_eq. destruct (decide (e0 ∈ firstFields rest)); naive_solver. }
        rewrite lookup_insert_ne by done. naive_solver.
Qed.

(** What [readAll] returns: the records of the file that have a field,
    or nothing. *)
Lemma readAll_cases (file : list (list string)) :
  (csvReadAll (filter (λ record, record ≠ []) file) = None ∧ readAll file = [])
  ∨ readAll file = filter (λ record, record ≠ []) file.
Proof.
  unfold readAll. destruct (csvReadAll _) as [records|] eqn:Hread; [right|by left].
  by apply csvReadAll_Some in Hread as ->.
Qed.

Lemma readAll_records (file : list (list string)) : [] ∉ readAll file.
Proof.
  destruct (readAll_cases file) as [[_ ->]| ->]; [by intros ?%elem_of_nil|].
  by intros [? _]%list_elem_of_filter.
Qed.

Lemma readAll_uniform (first : list string) (rest : list (list string)) :
  first ≠ [] → Forall (λ record, length record = length first) rest →
  readAll (first :: rest) = first :: rest.
Proof.
  intros Hfirst Hrest. unfold readAll.
  assert (filter (λ record, record ≠ []) (first :: rest) = first :: rest) as ->.
  { rewrite filter_cons_True by done. f_equal.
    induction Hrest as [|record rest Hlen _ IH]; [done|].
    rewrite filter_cons_True; [by rewrite IH|].
    intros ->. by destruct first. }
  by rewrite csvReadAll_uniform.
Qed.

End CertsFileFacts.

(** X4. [readCertsFile] always returns a map: it neither panics nor ends
    the run.  The map holds a key exactly for every first field of a record
    that [ReadAll] returned and that is not one of the five header names
    CertID, thumbprint, id, CertId and Thumbprint, and every key is bound to
    itself.  [ReadAll] returns no record, and the map is empty, when a
    record of the file has not as many fields as the first; it returns the
    records of the file when they all have. *)
Theorem readCertsFile_map (certsFile : list (list string)) :
  ∃ certs : gmap string string,
    readCertsFile (Some certsFile) = Ok certs
    ∧ (∀ k v, certs !! k = Some v ↔
         v = k ∧ (k ∉ certHeaderNames) ∧ k ∈ firstFields (readAll certsFile))
    ∧ (csvReadAll (filter (λ record, record ≠ []) certsFile) = None → certs = ∅)
    ∧ (∀ first rest, certsFile = first :: rest → first ≠ [] →
         Forall (λ record, length record = length first) rest →
         readAll certsFile = certsFile).
Proof.
  unfold readCertsFile.
  destruct (readCertEntries_spec (readAll certsFile) ∅) as [_ Hok].
  destruct (Hok (readAll_records certsFile)) as (certs & -> & Hcerts).
  exists certs. split; [done|]. split; [|split].
  - intros k v. rewrite Hcerts, lookup_empty. naive_solver.
  - intros Hragged. apply map_eq. intros k. rewrite lookup_empty.
    destruct (certs !! k) as [v|] eqn:Hk; [|done].
    apply Hcerts in Hk as [(_ & _ & Hin)|[Hin _]]; [|by rewrite lookup_empty in Hin].
    unfold readAll in Hin. rewrite Hragged in Hin. by apply elem_of_nil in Hin.
  - intros first rest -> Hfirst Hrest. by apply readAll_uniform.
Qed.

(** ** The store index and the scan of the stores file *)

Section IndexFacts.

Lemma indexStore_fold (inventory : list api.CertStoreInventory) (s0 : StoreCSVEntry) :
  let s := fold_left
             (λ s cert,
                {| ID := ID s; Type_ := Type_ s; Machine := Machine s; Path := Path s;
                   Thumbprints := api.Thumbprints cert ∪ Thumbprints s;
                   Serials := api.Serials cert ∪ Serials s;
                   Ids := api.Ids cert ∪ Ids s |})
             inventory s0 in
  ID s = ID s0 ∧ Type_ s = Type_ s0 ∧ Machine s = Machine s0 ∧ Path s = Path s0
  ∧ (∀ t, is_Some (Thumbprints s !! t) ↔
          is_Some (Thumbprints s0 !! t)
          ∨ ∃ inv, inv ∈ inventory ∧ is_Some (api.Thumbprints inv !! t))
  ∧ (∀ t, is_Some (Serials s !! t) ↔
          is_Some (Serials s0 !! t)
          ∨ ∃ inv, inv ∈ inventory ∧ is_Some (api.Serials inv !! t))
  ∧ (∀ n, is_Some (Ids s !! n) ↔
          is_Some (Ids s0 !! n)
          ∨ ∃ inv, inv ∈ inventory ∧ is_Some (api.Ids inv !! n)).
Proof.
  cbv zeta. revert s0. induction inventory as [|inv inventory IH]; intros s0.
  - cbn [fold_left]. repeat split; try done; try (by left);
      intros [?|(? & ?%elem_of_nil & _)]; done.
  - cbn [fold_left]. edestruct IH as (-> & -> & -> & -> & Ht & Hs & Hi).
    cbn [ID Type_ Machine Path Thumbprints Serials Ids] in *.
    repeat split.
    + rewrite Ht, lookup_union_is_Some. setoid_rewrite elem_of_cons. naive_solver.
    + rewrite Ht, lookup_union_is_Some. setoid_rewrite elem_of_cons. naive_solver.
    + rewrite Hs, lookup_union_is_Some. setoid_rewrite elem_of_cons. naive_solver.
    + rewrite Hs, lookup_union_is_Some. setoid_rewrite elem_of_cons. naive_solver.
    + rewrite Hi, lookup_union_is_Some. setoid_rewrite elem_of_cons. naive_solver.
    + rewrite Hi, lookup_union_is_Some. setoid_rewrite elem_of_cons. naive_solver.
Qed.

End IndexFacts.

(** X5. The entry the commands keep for a store has the four fields
    of its record, and its three indexes hold exactly the thumbprints, the
    serial numbers and the certificate ids that some item of the inventory
    holds. *)
Theorem indexStore_index (e0 e1 e2 e3 : string) (inventory : list api.CertStoreInventory) :
  ID (indexStore e0 e1 e2 e3 inventory) = e0
  ∧ Type_ (indexStore e0 e1 e2 e3 inventory) = e1
  ∧ Machine (indexStore e0 e1 e2 e3 inventory) = e2
  ∧ Path (indexStore e0 e1 e2 e3 inventory) = e3
  ∧ (∀ t, is_Some (Thumbprints (indexStore e0 e1 e2 e3 inventory) !! t) ↔
          ∃ inv, inv ∈ inventory ∧ is_Some (api.Thumbprints inv !! t))
  ∧ (∀ t, is_Some (Serials (indexStore e0 e1 e2 e3 inventory) !! t) ↔
          ∃ inv, inv ∈ inventory ∧ is_Some (api.Serials inv !! t))
  ∧ (∀ n, is_Some (Ids (indexStore e0 e1 e2 e3 inventory) !! n) ↔
          ∃ inv, inv ∈ inventory ∧ is_Some (api.Ids inv !! n)).
Proof.
  unfold indexStore.
  destruct (indexStore_fold inventory
              {| ID := e0; Type_ := e1; Machine := e2; Path := e3;
                 Thumbprints := ∅; Serials := ∅; Ids := ∅ |})
    as (-> & -> & -> & -> & Ht & Hs & Hi).
  cbn [ID Type_ Machine Path Thumbprints Serials Ids] in *.
  repeat split; try done.
  all: try (intros H; first [apply Ht in H|apply Hs in H|apply Hi in H];
            destruct H as [H|H]; [by rewrite lookup_empty in H; destruct H|done]).
  all: intros H; first [apply Ht|apply Hs|apply Hi]; by right.
Qed.

Section ScanFacts.

Variable kfClient : Client.
Variables minCerts maxLeaves maxKeys : Z.

Lemma scanStores_stores_from (pre storeEntries : list (list string)) (s s' : StoreScan) :
  scanStores kfClient minCerts maxLeaves maxKeys (length pre) storeEntries s = Ok s' →
  (∀ k e, stores s !! k = Some e → scannedFrom kfClient minCerts maxLeaves maxKeys (pre ++ storeEntries) k e) →
  ∀ k e, stores s' !! k = Some e → scannedFrom kfClient minCerts maxLeaves maxKeys (pre ++ storeEntries) k e.
Proof.
  revert pre s. induction storeEntries as [|entry rest IH]; intros pre s Hscan Hs.
  - by injection Hscan as <-.
  - cbn [scanStores] in Hscan.
    destruct (scanStore kfClient minCerts maxLeaves maxKeys (length pre) entry s)
      as [s1| |] eqn:Hstep; [|done..].
    replace (S (length pre)) with (length (pre ++ [entry])) in Hscan
      by (rewrite length_app; cbn; lia).
    replace (pre ++ entry :: rest) with ((pre ++ [entry]) ++ rest) in *
      by (by rewrite <- app_assoc).
    apply (IH _ _ Hscan). clear Hscan IH.
    unfold scanStore in Hstep. destruct entry as [|e0 fields]; [done|].
    destruct (_ || _) eqn:Hskip; [by injection Hstep as <-|].
    destruct (GetCertificateStoreByID kfClient e0) as [apiResp|] eqn:Hfound;
      [|by injection Hstep as <-].
    destruct (GetCertStoreInventory kfClient e0) as [inventory|] eqn:Hinv; [|done].
    destruct (negb _) eqn:Hroot; [by injection Hstep as <-|].
    destruct fields as [|e1 [|e2 [|e3 fields]]]; try done.
    injection Hstep as <-. cbn [stores]. intros k e.
    destruct (decide (k = e0)) as [->|Hne].
    + rewrite lookup_insert_eq. intros [= <-].
      apply orb_false_elim in Hskip as [[Hn1 Hn2]%orb_false_elim Hi].
      apply bool_decide_eq_false in Hn1, Hn2. apply Nat.eqb_neq in Hi.
      exists (length pre), e1, e2, e3, fields, inventory.
      repeat split; try done.
      * lia.
      * rewrite <- app_assoc. cbn [app]. by rewrite list_lookup_middle.
      * by apply negb_false_iff.
    + rewrite lookup_insert_ne by done. apply Hs.
Qed.

End ScanFacts.

(** X6. Every store that the scan of the reconcile command keeps was
    read from a record of the stores file after the first one whose first
    field is neither StoreID nor StoreId: the client found the store and
    returned its inventory, [isRootStore] accepted the inventory, and the
    entry is the index of that record and that inventory. *)
Theorem scanStores_stores (kfClient : Client) (minCerts maxLeaves maxKeys : Z)
    (storeEntries : list (list string)) (s : StoreScan) (k : string) (e : StoreCSVEntry) :
  scanStores kfClient minCerts maxLeaves maxKeys 0 storeEntries
             {| stores := ∅; lookupFailures := [] |} = Ok s →
  stores s !! k = Some e →
  scannedFrom kfClient minCerts maxLeaves maxKeys storeEntries k e.
Proof.
  intros Hscan. apply (scanStores_stores_from kfClient minCerts maxLeaves maxKeys [] _ _ _ Hscan).
  intros k' e'. cbn [stores]. by rewrite lookup_empty.
Qed.

Lemma scanStores_stores_witness :
  scanStores Sample.kfClient (-1) (-1) (-1) 0 Sample.storeEntries
             {| stores := ∅; lookupFailures := [] |} = Ok Sample.scanned
  ∧ stores Sample.scanned !! "77aa01f3-s2"
    = Some (indexStore "77aa01f3-s2" "PEM" "host2" "/etc/ssl/roots.pem" [Sample.rootItem])
  ∧ scannedFrom Sample.kfClient (-1) (-1) (-1) Sample.storeEntries "77aa01f3-s2"
      (indexStore "77aa01f3-s2" "PEM" "host2" "/etc/ssl/roots.pem" [Sample.rootItem]).
Proof.
  split; [reflexivity|]. split; [reflexivity|].
  apply (scanStores_stores Sample.kfClient (-1) (-1) (-1) Sample.storeEntries Sample.scanned);
    reflexivity.
Defined.

(** ** The Diff Engine: the rows and the action map *)

Section TraceFacts.

Variable rt : MapRange.
Variable kfClient : Client.
Variable GetCurrentTime : nat → string.

Implicit Types (st : Report) (stores : gmap string StoreCSVEntry)
  (certs : gmap string string) (outs : list Output).

Lemma extends_refl st st' :
  data st' = data st → csvFile st' = csvFile st → actions st' = actions st →
  extends st st' [].
Proof. intros Hd Hc Ha. unfold extends. cbn. by rewrite Hd, Hc, Ha, !app_nil_r. Qed.

Lemma extends_trans st1 st2 st3 outs outs' :
  extends st1 st2 outs → extends st2 st3 outs' → extends st1 st3 (outs ++ outs').
Proof.
  intros (Hd & Hc & Ha) (Hd' & Hc' & Ha'). unfold extends.
  rewrite Hd', Hc', Ha', Hd, Hc, Ha, fmap_app, fold_left_app, !app_assoc. done.
Qed.

Lemma extends_emit st (o : Output) : extends st (emit st o.1 o.2) [o].
Proof. by unfold extends, emit. Qed.

Lemma fold_emits {A B} (body : Report → A → Report) (g : Output → B) (f : A → B)
    (l : list A) st :
  (∀ st' x, ∃ o, body st' x = emit st' o.1 o.2 ∧ g o = f x) →
  ∃ outs, extends st (fold_left body l st) outs ∧ g <$> outs = f <$> l.
Proof.
  intros Hbody. revert st. induction l as [|x l IH]; intros st.
  - exists []. split; [by apply extends_refl|done].
  - cbn [fold_left]. destruct (Hbody st x) as (o & -> & Ho).
    destruct (IH (emit st o.1 o.2)) as (outs & Hext & Houts).
    exists ([o] ++ outs). split.
    + eapply extends_trans; [apply extends_emit|done].
    + cbn. by rewrite Ho, Houts.
Qed.

Lemma rangeStores_emits {B} (body : Report → StoreCSVEntry → Report)
    (g : Output → B) (f : StoreCSVEntry → B) stores st :
  (∀ st' x, ∃ o, body st' x = emit st' o.1 o.2 ∧ g o = f x) →
  ∃ outs, extends st (rangeStores rt body stores st) outs
          ∧ g <$> outs ≡ₚ f <$> (map_to_list stores).*2.
Proof.
  intros Hbody. unfold rangeStores.
  edestruct (fold_emits body g f) as (outs & Hext & Houts); [exact Hbody|].
  exists outs. split.
  - change outs with ([] ++ outs).
    eapply extends_trans; [|exact Hext]. by apply extends_refl.
  - by rewrite Houts, (visit_perm rt).
Qed.

Lemma certSteps_emits {B}
    (body : string → CertificateContext → Report → StoreCSVEntry → Report)
    (g : Output → B) (f : string → CertificateContext → StoreCSVEntry → B)
    stores (l : list string) st :
  (∀ cert c st' x, ∃ o, body cert c st' x = emit st' o.1 o.2 ∧ g o = f cert c x) →
  ∃ outs, extends st (fold_left (certStep rt kfClient body stores) l st) outs
          ∧ g <$> outs
            ≡ₚ (cert ← l;
                match GetCertificateContext kfClient cert with
                | Some c => f cert c <$> (map_to_list stores).*2
                | None => []
                end).
Proof.
  intros Hbody. revert st. induction l as [|cert l IH]; intros st.
  - exists []. split; [by apply extends_refl|done].
  - cbn [fold_left]. unfold certStep at 2.
    destruct (GetCertificateContext kfClient cert) as [c|] eqn:Hc.
    + destruct (rangeStores_emits (body cert c) g (f cert c) stores st (Hbody cert c))
        as (outs1 & Hext1 & Houts1).
      destruct (IH (rangeStores rt (body cert c) stores st)) as (outs2 & Hext2 & Houts2).
      exists (outs1 ++ outs2). split; [by eapply extends_trans|].
      rewrite fmap_app, Houts1, Houts2. cbn [mbind list_bind]. by rewrite Hc.
    + match goal with |- context [fold_left _ l ?s] => destruct (IH s) as (outs & Hext & Houts) end.
      exists outs. split.
      * change outs with ([] ++ outs).
        eapply extends_trans; [|exact Hext]. by apply extends_refl.
      * rewrite Houts. cbn [mbind list_bind]. by rewrite Hc.
Qed.

Lemma rangeCerts_emits {B}
    (body : string → CertificateContext → Report → StoreCSVEntry → Report)
    (g : Output → B) (f : string → CertificateContext → StoreCSVEntry → B)
    certs stores st :
  (∀ cert c st' x, ∃ o, body cert c st' x = emit st' o.1 o.2 ∧ g o = f cert c x) →
  ∃ outs, extends st (rangeCerts rt kfClient body certs stores st) outs
          ∧ g <$> outs ≡ₚ pairsOf kfClient certs stores f.
Proof.
  intros Hbody. unfold rangeCerts.
  edestruct (certSteps_emits body g f) as (outs & Hext & Houts); [exact Hbody|].
  exists outs. split.
  - change outs with ([] ++ outs).
    eapply extends_trans; [|exact Hext]. by apply extends_refl.
  - rewrite Houts. unfold pairsOf. by rewrite (visit_perm rt).
Qed.

Lemma untimed_addOutput cert c store now :
  untimed (addOutput cert c store now) = untimed (addOutput cert c store "").
Proof. unfold addOutput, untimed. by case_bool_decide. Qed.

End TraceFacts.

(** X7. The rows of the audit report are, up to the order in which the
    maps are ranged over and their time stamps, exactly one add row for
    every resolved thumbprint of the add map and every store, followed by
    one remove row for every resolved thumbprint of the remove map and every
    store; the actions of the report are those of these rows. *)
Theorem audit_rows_exact (rt : MapRange) (kfClient : Client)
    (GetCurrentTime : nat → string) (addCerts removeCerts : gmap string string)
    (stores : gmap string StoreCSVEntry) :
  ∃ adds removes : list Output,
    auditRows (generateAuditReport rt kfClient GetCurrentTime addCerts removeCerts stores)
    = (adds ++ removes).*1
    ∧ actions (generateAuditReport rt kfClient GetCurrentTime addCerts removeCerts stores)
      = replay (adds ++ removes)
    ∧ untimed <$> adds
      ≡ₚ pairsOf kfClient addCerts stores
           (λ cert c store, untimed (addOutput cert c store ""))
    ∧ removes ≡ₚ pairsOf kfClient removeCerts stores removeOutput.
Proof.
  unfold generateAuditReport.
  set (st0 := {| data := [AuditHeader]; csvFile := [AuditHeader]; actions := ∅;
                 ranges := 0; logged := [] |}).
  destruct (rangeCerts_emits rt kfClient (addStore GetCurrentTime) untimed
              (λ cert c store, untimed (addOutput cert c store "")) addCerts stores st0)
    as (adds & Hadd & Hadds).
  { intros cert c st' store. eexists. split; [apply addStore_emit|].
    apply untimed_addOutput. }
  destruct (rangeCerts_emits rt kfClient removeStore id removeOutput removeCerts stores
              (rangeCerts rt kfClient (addStore GetCurrentTime) addCerts stores st0))
    as (removes & Hrem & Hrems).
  { intros cert c st' store. eexists. split; [apply removeStore_emit|done]. }
  rewrite list_fmap_id in Hrems.
  exists adds, removes.
  destruct (extends_trans _ _ _ _ _ Hadd Hrem) as (Hd & _ & Ha).
  unfold auditRows. rewrite Hd, Ha. by repeat split.
Qed.

(** X8. The action map of the audit report groups the actions of its
    rows by thumbprint.  The rows pair up with the actions, each action
    with the row that has its thumbprint in the first cell and its
    certificate id in the second; under a thumbprint stand the actions of
    the rows with that thumbprint, in the order of the rows; and a
    thumbprint that is not the first cell of a row has no entry. *)
Theorem actions_grouped_by_thumbprint (rt : MapRange) (kfClient : Client)
    (GetCurrentTime : nat → string) (addCerts removeCerts : gmap string string)
    (stores : gmap string StoreCSVEntry) :
  ∃ outs : list Output,
    auditRows (generateAuditReport rt kfClient GetCurrentTime addCerts removeCerts stores)
    = outs.*1
    ∧ Forall actionOfRow outs
    ∧ (∀ t, actions (generateAuditReport rt kfClient GetCurrentTime
                                        addCerts removeCerts stores) !! t
            = actionsFor t (omap snd outs))
    ∧ (∀ t, t ∉ firstFields (auditRows (generateAuditReport rt kfClient GetCurrentTime
                                          addCerts removeCerts stores)) →
            actions (generateAuditReport rt kfClient GetCurrentTime
                                        addCerts removeCerts stores) !! t = None).
Proof.
  destruct (generateAuditReport_outputs rt kfClient GetCurrentTime addCerts removeCerts stores)
    as (outs & Hdata & _ & Hact & Houts).
  assert (Hrows : Forall actionOfRow outs).
  { eapply Forall_impl; [exact Houts|]. cbn beta. unfold actionOfRow.
    intros o [(cert & c & store & now & _ & _ & _ & ->)|(cert & c & store & _ & _ & _ & ->)].
    - unfold addOutput. case_bool_decide; cbn [fst snd]; [done|]. by intros a [= <-].
    - unfold removeOutput. case_bool_decide; cbn [fst snd]; [|done]. by intros a [= <-]. }
  exists outs. unfold auditRows. rewrite Hdata, Hact. cbn [tail].
  split; [done|]. split; [done|]. split; [intros t; apply replay_lookup|].
  intros t Ht. rewrite replay_lookup. unfold actionsFor.
  destruct (filter _ _) as [|a l] eqn:Hf; [done|]. exfalso. apply Ht.
  assert (a ∈ filter (λ a, Thumbprint a = t) (omap snd outs)) as Ha
    by (rewrite Hf; left).
  apply list_elem_of_filter in Ha as [<- Ha].
  apply list_elem_of_omap in Ha as (o & Ho & Hsnd).
  rewrite Forall_forall in Hrows. destruct (Hrows o Ho a Hsnd) as [Hhead _].
  unfold firstFields. apply list_elem_of_omap. exists o.1. split; [|done].
  apply list_elem_of_fmap. by exists o.
Qed.

(** ** The Reconciler and the loader: order and grouping *)

Section ReconcilerOrder.

Variable rt : MapRange.

Lemma reconcileRoots_events (kfClient : Client) (k : nat)
    (m : gmap string (list ROTAction)) (dryRun : bool) :
  (reconcileRoots rt kfClient k m dryRun).1
  = concat (map (applyAction kfClient dryRun) (actionsInOrder rt k m)).
Proof.
  unfold reconcileRoots, actionsInOrder. case_bool_decide as Hsize.
  - apply map_size_empty_iff in Hsize as ->. rewrite map_to_list_empty.
    pose proof (visit_perm rt _ k (@nil (string * list ROTAction))) as Hp.
    apply Permutation_nil_r in Hp. by rewrite Hp.
  - cbn [fst]. induction (visit rt k (map_to_list m)) as [|[t l] order IH]; [done|].
    cbn [map concat fmap list_fmap snd]. by rewrite map_app, concat_app, IH.
Qed.

Lemma calls_applyAction (kfClient : Client) (acts : list ROTAction) :
  calls (concat (map (applyAction kfClient false) acts)) = omap requestOf acts.
Proof.
  induction acts as [|a acts IH]; [done|].
  cbn [map concat omap list_omap]. rewrite calls_app, IH.
  unfold applyAction, requestOf.
  destruct (AddCert a), (RemoveCert a); cbn [negb]; try done;
    unfold calls; rewrite filter_cons_True by done; repeat case_match; done.
Qed.

Lemma noticed_applyAction (kfClient : Client) (acts : list ROTAction) :
  noticed (concat (map (applyAction kfClient true) acts))
  = filter (λ a, flagged a = true) acts.
Proof.
  induction acts as [|a acts IH]; [done|].
  cbn [map concat]. unfold noticed in *. rewrite omap_app, IH, filter_cons.
  unfold applyAction, flagged.
  destruct (AddCert a), (RemoveCert a); cbn [negb orb]; by case_decide.
Qed.

Lemma requestOf_flagged (acts : list ROTAction) :
  omap requestOf (filter (λ a, flagged a = true) acts) = omap requestOf acts.
Proof.
  induction acts as [|a acts IH]; [done|].
  rewrite filter_cons. case_decide as Hf; cbn [omap list_omap]; rewrite IH; [done|].
  replace (requestOf a) with (@None Event); [done|].
  unfold flagged in Hf. unfold requestOf.
  by destruct (AddCert a), (RemoveCert a).
Qed.

End ReconcilerOrder.

(** X9. A dry run of [reconcileRoots] announces exactly the actions
    that have a flag set, in the order in which they are met; a run that is
    not dry sends exactly one request for each of them in that order (an add
    when [AddCert] is set, otherwise a remove), whatever the client answers.
    So the requests of a run are those of the actions its dry run
    announces. *)
Theorem dry_run_announces_the_requests (rt : MapRange) (kfClient kfClient' : Client)
    (k : nat) (m : gmap string (list ROTAction)) :
  noticed (reconcileRoots rt kfClient k m true).1
  = filter (λ a, flagged a = true) (actionsInOrder rt k m)
  ∧ calls (reconcileRoots rt kfClient' k m false).1
    = omap requestOf (actionsInOrder rt k m)
  ∧ calls (reconcileRoots rt kfClient' k m false).1
    = omap requestOf (noticed (reconcileRoots rt kfClient k m true).1).
Proof.
  rewrite !reconcileRoots_events, noticed_applyAction, calls_applyAction.
  by rewrite requestOf_flagged.
Qed.

Section LoaderFacts.

Lemma loadRow_header (l : Loader) (row : list string) :
  isHeader AuditHeader row = true →
  loadRow l row = Ok {| validHeader := true; loaded := loaded l |}.
Proof. intros Hrow. unfold loadRow. by rewrite Hrow. Qed.

Lemma dataRows_header (row : list string) (rows : list (list string)) :
  isHeader AuditHeader row = true → dataRows (row :: rows) = dataRows rows.
Proof.
  intros Hrow. unfold dataRows. rewrite filter_cons. case_decide as Hd; [|done].
  by rewrite Hrow in Hd.
Qed.

Lemma dataRows_data (row : list string) (rows : list (list string)) :
  isHeader AuditHeader row = false → dataRows (row :: rows) = row :: dataRows rows.
Proof. intros Hrow. unfold dataRows. rewrite filter_cons. by case_decide. Qed.

Lemma loadRows_actions (rows : list (list string)) (l l' : Loader) :
  loadRows rows l = Ok l' →
  loaded l' = fold_left (λ m a, appendAction a m) (omap rowToAction (dataRows rows))
                        (loaded l)
  ∧ Forall mappable (dataRows rows)
  ∧ (validHeader l = false → ∀ first rest, rows = first :: rest →
       isHeader AuditHeader first = true).
Proof.
  revert l. induction rows as [|row rows IH]; intros l Hload.
  - injection Hload as <-. by repeat split.
  - revert Hload. cbn [loadRows].
    destruct (isHeader AuditHeader row) eqn:Hrow.
    + rewrite (loadRow_header l row Hrow), (dataRows_header row rows Hrow).
      intros Hload. destruct (IH _ Hload) as (Hl & Hmap & _).
      repeat split; try done. intros _ first rest [= <- _]. exact Hrow.
    + rewrite (loadRow_data l row Hrow), (dataRows_data row rows Hrow).
      destruct (validHeader l) eqn:Hv; [|done]. cbn [negb].
      destruct (rowToAction row) as [a|] eqn:Ha; [|done].
      intros Hload. destruct (IH _ Hload) as (Hl & Hmap & _).
      cbn [omap list_omap]. rewrite Ha. cbn [fold_left].
      repeat split; try done.
      apply Forall_cons. split; [|done]. apply rowToAction_mappable. by rewrite Ha.
Qed.

End LoaderFacts.

(** X10. When the loader of [reconcile --import-csv] accepts a file,
    every record that is not a header line maps to an action, the actions
    stand under their thumbprints in the order of the records, the first
    record is a header line and every record has as many fields as the
    first. *)
Theorem loadAudit_groups_rows (file : list (list string))
    (acts : gmap string (list ROTAction)) :
  loadAudit file = Ok acts →
  (∀ t, acts !! t = actionsFor t (omap rowToAction (dataRows file)))
  ∧ Forall mappable (dataRows file)
  ∧ length (omap rowToAction (dataRows file)) = length (dataRows file)
  ∧ (∀ first rest, file = first :: rest →
       isHeader AuditHeader first = true
       ∧ Forall (λ record, length record = length first) rest).
Proof.
  unfold loadAudit. destruct (csvReadAll file) as [inFile|] eqn:Hread; [|done].
  pose proof (csvReadAll_Some _ _ Hread) as ->.
  destruct (loadRows file _) as [l| |] eqn:Hload; [|done..]. intros [= <-].
  apply loadRows_actions in Hload as (Hloaded & Hmap & Hfirst). cbn [loaded] in Hloaded.
  split; [|split; [|split]].
  - intros t. rewrite Hloaded, appendActions_lookup, lookup_empty. unfold actionsFor.
    by destruct (filter _ _).
  - done.
  - clear -Hmap. induction Hmap as [|row rows Hrow _ IH]; [done|].
    apply rowToAction_mappable in Hrow as [a Ha]. cbn [omap list_omap]. rewrite Ha.
    cbn [length]. by rewrite IH.
  - intros first rest ->. split; [by eapply Hfirst|].
    unfold csvReadAll in Hread. destruct (forallb _ _) eqn:Hall; [|done].
    cbn [forallb] in Hall. apply andb_prop in Hall as [_ Hall].
    apply Forall_forall. intros record Hin.
    rewrite forallb_forall in Hall. apply Nat.eqb_eq, Hall. by apply list_elem_of_In.
Qed.

Lemma loadAudit_groups_rows_witness :
  loadAudit [AuditHeader; Sample.oddRow; AuditHeader; Sample.oddRow]
  = Ok {[ "AAA111" := [ {| StoreID := "5d1b2e0c-s1"; StoreType := "PEM";
                           StorePath := "/etc/ssl/roots.pem"; Thumbprint := "AAA111";
                           CertID := 7; AddCert := false; RemoveCert := false |};
                        {| StoreID := "5d1b2e0c-s1"; StoreType := "PEM";
                           StorePath := "/etc/ssl/roots.pem"; Thumbprint := "AAA111";
                           CertID := 7; AddCert := false; RemoveCert := false |} ] ]}
  ∧ length (dataRows [AuditHeader; Sample.oddRow; AuditHeader; Sample.oddRow]) = 2.
Proof.
  assert (Hload : loadAudit [AuditHeader; Sample.oddRow; AuditHeader; Sample.oddRow]
    = Ok {[ "AAA111" := [ {| StoreID := "5d1b2e0c-s1"; StoreType := "PEM";
                           StorePath := "/etc/ssl/roots.pem"; Thumbprint := "AAA111";
                           CertID := 7; AddCert := false; RemoveCert := false |};
                        {| StoreID := "5d1b2e0c-s1"; StoreType := "PEM";
                           StorePath := "/etc/ssl/roots.pem"; Thumbprint := "AAA111";
                           CertID := 7; AddCert := false; RemoveCert := false |} ] ]})
    by (by vm_compute).
  split; [exact Hload|].
  destruct (loadAudit_groups_rows _ _ Hload) as (_ & _ & <- & _). by vm_compute.
Defined.

(** ** The requests of a reconcile from files *)

Section JustifiedFacts.

Lemma elem_of_concat_map {A B} (f : A → list B) (l : list A) (y : B) :
  y ∈ concat (map f l) ↔ ∃ x, x ∈ l ∧ y ∈ f x.
Proof.
  induction l as [|x l IH]; cbn [map concat].
  - split; [by intros ?%elem_of_nil|by intros (? & ?%elem_of_nil & _)].
  - rewrite elem_of_app, IH. setoid_rewrite elem_of_cons. naive_solver.
Qed.

Lemma elem_of_actionsInOrder (rt : MapRange) (k : nat) (m : gmap string (list ROTAction))
    (a : ROTAction) :
  a ∈ actionsInOrder rt k m ↔ ∃ t l, m !! t = Some l ∧ a ∈ l.
Proof.
  unfold actionsInOrder. rewrite (visit_perm rt).
  rewrite <- (map_id (map_to_list m).*2), elem_of_concat_map.
  setoid_rewrite list_elem_of_fmap. split.
  - intros (l & ([t l'] & -> & Hin) & Ha). exists t, l'. by apply elem_of_map_to_list in Hin.
  - intros (t & l & Hl & Ha). exists l. split; [|done]. exists (t, l).
    split; [done|]. by apply elem_of_map_to_list.
Qed.

Lemma elem_of_replay (outs : list Output) (t : string) (l : list ROTAction) (a : ROTAction) :
  replay outs !! t = Some l → a ∈ l → ∃ row, (row, Some a) ∈ outs.
Proof.
  rewrite replay_lookup. unfold actionsFor.
  destruct (filter _ _) as [|a' l'] eqn:Hf; [done|]. intros [= <-] Ha.
  rewrite <- Hf in Ha. apply list_elem_of_filter in Ha as [_ Ha].
  apply list_elem_of_omap in Ha as ([row act] & Hin & Hact). cbn in Hact. subst act.
  by exists row.
Qed.

Lemma call_of_action (kfClient : Client) (dryRun : bool) (a : ROTAction) (e : Event) :
  e ∈ applyAction kfClient dryRun a → isCall e = true →
  dryRun = false ∧ requestOf a = Some e.
Proof.
  unfold applyAction, requestOf.
  destruct (AddCert a), (RemoveCert a), dryRun; cbn [negb];
    repeat case_match; rewrite ?elem_of_cons, ?elem_of_nil; naive_solver.
Qed.

(** The requests of a reconcile over the actions of an audit. *)
Lemma audit_requests_justified (rt rt' : MapRange) (kfClient kfClient' : Client)
    (GetCurrentTime : nat → string) (addCerts removeCerts : gmap string string)
    (stores : gmap string StoreCSVEntry) (k : nat) (dryRun : bool) (e : Event) :
  e ∈ calls (reconcileRoots rt' kfClient' k
               (actions (generateAuditReport rt kfClient GetCurrentTime
                                             addCerts removeCerts stores)) dryRun).1 →
  dryRun = false ∧ justified kfClient addCerts removeCerts stores e.
Proof.
  intros [Hcall He]%list_elem_of_filter.
  rewrite reconcileRoots_events in He.
  apply elem_of_concat_map in He as (a & Ha & He).
  destruct (call_of_action _ _ _ _ He Hcall) as [Hdry Hreq]. split; [done|].
  clear Hdry He Hcall.
  apply elem_of_actionsInOrder in Ha as (t & l & Hl & Ha).
  destruct (generateAuditReport_outputs rt kfClient GetCurrentTime addCerts removeCerts stores)
    as (outs & _ & _ & Hact & Houts).
  rewrite Hact in Hl. destruct (elem_of_replay _ _ _ _ Hl Ha) as [row Hin].
  rewrite Forall_forall in Houts.
  destruct (Houts _ Hin) as [(cert & c & store & now & Hcert & Hc & Hstore & Ho)
                            |(cert & c & store & Hcert & Hc & Hstore & Ho)].
  - unfold addOutput in Ho. case_bool_decide as Hheld; [done|]. injection Ho as -> ->.
    unfold requestOf in Hreq. cbn in Hreq. injection Hreq as <-.
    exists cert, c, store. repeat split; try done. left. repeat split; try done.
    destruct (Thumbprints store !! cert) eqn:Hlook; [|done]. by destruct Hheld.
  - unfold removeOutput in Ho. case_bool_decide as Hheld; [|done]. injection Ho as -> ->.
    unfold requestOf in Hreq. cbn in Hreq. injection Hreq as <-.
    exists cert, c, store. repeat split; try done. by right.
Qed.

Lemma generateAuditReport_logs_no_call (rt : MapRange) (kfClient : Client)
    (GetCurrentTime : nat → string) (addCerts removeCerts : gmap string string)
    (stores : gmap string StoreCSVEntry) :
  calls (logged (generateAuditReport rt kfClient GetCurrentTime
                                     addCerts removeCerts stores)) = [].
Proof.
  unfold calls. apply Permutation_nil_r.
  rewrite generateAuditReport_logged.
  induction (_ ++ _) as [|cert l IH]; [done|].
  cbn [fmap list_fmap]. by rewrite filter_cons_False by done.
Qed.

End JustifiedFacts.

(** X11. Every request that the reconcile command sends from a stores
    file and two certificate files is justified: the run is not a dry run,
    the scan of the records read from the stores file met no look-up failure, and the request is
    an add of a resolved certificate of the add file to a kept store that
    lacks its thumbprint, or a remove of a resolved certificate of the remove
    file from a kept store that holds its thumbprint. *)
Theorem reconcile_requests_justified (rt : MapRange) (kfClient : Client)
    (GetCurrentTime : nat → string) (minCerts maxLeaves maxKeys : Z) (dryRun : bool)
    (storesFile : list (list string))
    (addRootsFile removeRootsFile : option (list (list string))) (e : Event) :
  e ∈ calls (reconcileFiles rt kfClient GetCurrentTime minCerts maxLeaves maxKeys dryRun
                            storesFile addRootsFile removeRootsFile).1 →
  dryRun = false
  ∧ ∃ s certsToAdd certsToRemove,
      scanStores kfClient minCerts maxLeaves maxKeys 0 (readAll storesFile)
                 {| stores := ∅; lookupFailures := [] |} = Ok s
      ∧ lookupFailures s = []
      ∧ readCertsFile addRootsFile = Ok certsToAdd
      ∧ readCertsFile removeRootsFile = Ok certsToRemove
      ∧ justified kfClient certsToAdd certsToRemove (stores s) e.
Proof.
  unfold reconcileFiles.
  destruct (scanStores _ _ _ _ _ _ _) as [s| |] eqn:Hscan;
    [|by intros ?%elem_of_nil..].
  case_bool_decide as Hfail; [by intros ?%elem_of_nil|].
  case_bool_decide as Hnone; [by intros ?%elem_of_nil|].
  destruct (readCertsFile addRootsFile) as [certsToAdd| |] eqn:Hadd;
    destruct (readCertsFile removeRootsFile) as [certsToRemove| |] eqn:Hrem;
    try by intros ?%elem_of_nil.
  case_bool_decide as Hacts.
  - cbn [fst]. by rewrite generateAuditReport_logs_no_call; intros ?%elem_of_nil.
  - destruct (reconcileRoots _ _ _ _ _) as [evs rErr] eqn:Hrec.
    intros He. assert (e ∈ calls evs) as He'.
    { destruct rErr; cbn [fst] in He;
        rewrite calls_app, generateAuditReport_logs_no_call in He; exact He. }
    replace evs with (reconcileRoots rt kfClient
      (ranges (generateAuditReport rt kfClient GetCurrentTime certsToAdd certsToRemove
                                   (stores s)))
      (actions (generateAuditReport rt kfClient GetCurrentTime certsToAdd certsToRemove
                                    (stores s))) dryRun).1 in He' by (by rewrite Hrec).
    apply audit_requests_justified in He' as [-> Hjust]. split; [done|].
    exists s, certsToAdd, certsToRemove. repeat split; try done.
    destruct (lookupFailures s); [done|]. exfalso. apply Hfail. cbn. lia.
Qed.

Lemma reconcile_requests_justified_witness :
  CallAdd 7 "77aa01f3-s2"
    ∈ calls (reconcileFiles rangeInOrder Sample.kfClient Sample.GetCurrentTime
                            (-1) (-1) (-1) false Sample.foundEntries
                            (Some Sample.certsFile) None).1
  ∧ ∃ s certsToAdd certsToRemove,
      scanStores Sample.kfClient (-1) (-1) (-1) 0 (readAll Sample.foundEntries)
                 {| stores := ∅; lookupFailures := [] |} = Ok s
      ∧ lookupFailures s = []
      ∧ readCertsFile (Some Sample.certsFile) = Ok certsToAdd
      ∧ readCertsFile None = Ok certsToRemove
      ∧ justified Sample.kfClient certsToAdd certsToRemove (stores s)
                  (CallAdd 7 "77aa01f3-s2").
Proof.
  assert (Hin : CallAdd 7 "77aa01f3-s2"
    ∈ calls (reconcileFiles rangeInOrder Sample.kfClient Sample.GetCurrentTime
                            (-1) (-1) (-1) false Sample.foundEntries
                            (Some Sample.certsFile) None).1)
    by (vm_compute; left).
  split; [exact Hin|].
  exact (proj2 (reconcile_requests_justified rangeInOrder Sample.kfClient
                  Sample.GetCurrentTime (-1) (-1) (-1) false Sample.foundEntries
                  (Some Sample.certsFile) None _ Hin)).
Defined.

(** ** Import and replay *)

Section ReplayFacts.

Lemma map_to_list_omap {A B} (f : A → option B) (m : gmap string A) :
  map_to_list (omap f m) ≡ₚ omap (λ kx, pair kx.1 <$> f kx.2) (map_to_list m).
Proof.
  induction m as [|k x m Hk IH] using map_ind.
  - by rewrite omap_empty, !map_to_list_empty.
  - rewrite map_to_list_insert by done. cbn [omap list_omap fst snd].
    destruct (f x) as [y|] eqn:Hfx; cbn [fmap option_fmap option_map].
    + rewrite (omap_insert_Some f m k x y Hfx).
      rewrite map_to_list_insert by (by rewrite lookup_omap, Hk). by rewrite IH.
    + rewrite (omap_insert_None f m k x Hfx).
      rewrite delete_id by (by rewrite lookup_omap, Hk). done.
Qed.

Lemma concat_snd_bind {A B} (l : list (A * list B)) : concat l.*2 = l ≫= snd.
Proof. induction l as [|[a x] l IH]; [done|]. cbn. by rewrite IH. Qed.

Lemma requests_pruned (l : list (string * list ROTAction)) :
  omap requestOf
    (omap (λ kx : string * list ROTAction,
             pair kx.1 <$> match filter (λ a, flagged a = true) kx.2 with
                           | [] => None
                           | l' => Some l'
                           end) l ≫= snd)
  = omap requestOf (l ≫= snd).
Proof.
  induction l as [|[t acts] l IH]; [done|].
  cbn [omap list_omap fst snd mbind list_bind].
  rewrite omap_app, <- (requestOf_flagged acts), <- IH.
  destruct (filter _ acts) as [|a acts'] eqn:Hf; cbn [fmap option_fmap option_map]; [done|].
  cbn [mbind list_bind snd]. by rewrite omap_app.
Qed.

(** Up to their order, the requests of a reconcile are those of the map
    without its no-op actions, whatever the order of the two range loops. *)
Lemma requests_of_pruned (rt rt' : MapRange) (k k' : nat)
    (m : gmap string (list ROTAction)) :
  omap requestOf (actionsInOrder rt k m)
  ≡ₚ omap requestOf (actionsInOrder rt' k' (prune m)).
Proof.
  unfold actionsInOrder. rewrite !concat_snd_bind, !(visit_perm _).
  unfold prune. rewrite map_to_list_omap. by rewrite requests_pruned.
Qed.

Lemma calls_of_pruned (rt rt' : MapRange) (kfClient kfClient' : Client) (k k' : nat)
    (m : gmap string (list ROTAction)) (dryRun : bool) :
  calls (reconcileRoots rt kfClient k m dryRun).1
  ≡ₚ calls (reconcileRoots rt' kfClient' k' (prune m) dryRun).1.
Proof.
  rewrite !reconcileRoots_events. destruct dryRun.
  - by rewrite !(calls_concat_nil _ _ (applyAction_dry_run _)).
  - rewrite !calls_applyAction. apply requests_of_pruned.
Qed.

End ReplayFacts.

Lemma reconcileImport_calls (rt rt' : MapRange) (kfClient kfClient' : Client)
    (k : nat) (dryRun : bool) (file : list (list string))
    (acts : gmap string (list ROTAction)) :
  loadAudit file = Ok acts →
  calls (reconcileImport rt kfClient dryRun file).1
  ≡ₚ calls (reconcileRoots rt' kfClient' k (prune acts) dryRun).1.
Proof.
  intros Hload. unfold reconcileImport. rewrite Hload. case_bool_decide as Hsize.
  - apply map_size_empty_iff in Hsize as ->.
    rewrite reconcileRoots_events. unfold actionsInOrder, prune.
    rewrite omap_empty, map_to_list_empty.
    pose proof (visit_perm rt' _ k (@nil (string * list ROTAction))) as Hp.
    apply Permutation_nil_r in Hp. by rewrite Hp.
  - destruct (reconcileRoots rt kfClient 0 acts dryRun) as [evs rErr] eqn:Hrec.
    replace (match rErr with Some _ => _ | None => _ end).1 with evs by (by destruct rErr).
    replace evs with (reconcileRoots rt kfClient 0 acts dryRun).1 by (by rewrite Hrec).
    apply calls_of_pruned.
Qed.

(** X12. The requests of [reconcile --import-csv] over a file that
    loads are, up to their order, those of [reconcileRoots] over the loaded
    actions without the ones that have no flag set, for any order of the map
    and any answers of the client. *)
Theorem import_requests_skip_no_ops (rt rt' : MapRange) (kfClient kfClient' : Client)
    (k : nat) (dryRun : bool) (file : list (list string))
    (acts : gmap string (list ROTAction)) :
  loadAudit file = Ok acts →
  calls (reconcileImport rt kfClient dryRun file).1
  ≡ₚ calls (reconcileRoots rt' kfClient' k (prune acts) dryRun).1.
Proof. apply reconcileImport_calls. Qed.

Lemma import_requests_skip_no_ops_witness :
  loadAudit [AuditHeader; Sample.oddRow]
  = Ok {[ "AAA111" := [ {| StoreID := "5d1b2e0c-s1"; StoreType := "PEM";
                           StorePath := "/etc/ssl/roots.pem"; Thumbprint := "AAA111";
                           CertID := 7; AddCert := false; RemoveCert := false |} ] ]}
  ∧ calls (reconcileImport rangeInOrder Sample.kfClient false
                           [AuditHeader; Sample.oddRow]).1
    ≡ₚ calls (reconcileRoots rangeReversed Sample.kfClient 0
                (prune {[ "AAA111" := [ {| StoreID := "5d1b2e0c-s1"; StoreType := "PEM";
                                         StorePath := "/etc/ssl/roots.pem";
                                         Thumbprint := "AAA111"; CertID := 7;
                                         AddCert := false; RemoveCert := false |} ] ]})
                false).1.
Proof.
  split; [by vm_compute|].
  apply (import_requests_skip_no_ops rangeInOrder rangeReversed Sample.kfClient
           Sample.kfClient 0 false [AuditHeader; Sample.oddRow]).
  by vm_compute.
Defined.

(** X13. Audit of an add list, then import.  For an audit whose remove
    map is empty: when the thumbprints of the add map are hexadecimal, the
    certificate ids the client returns for them are in the range of an int,
    and the ids, types and paths of the stores are text without a carriage
    return before a line feed, importing the audit file, as [csv.Reader]
    reads what [csv.Writer] wrote, sends, up to their order, the requests
    that [reconcileRoots] sends for the actions of the report itself. *)
Theorem replay_sends_the_requests_of_the_audit (rt rt' rt'' : MapRange)
    (kfClient kfClient' kfClient'' : Client) (GetCurrentTime : nat → string)
    (addCerts : gmap string string) (stores : gmap string StoreCSVEntry)
    (k : nat) (dryRun : bool) :
  forallb isThumbprint (map_to_list addCerts).*2 = true →
  forallb (idInRange kfClient) (map_to_list addCerts).*2 = true →
  forallb storeIsText (map_to_list stores).*2 = true →
  calls (reconcileImport rt' kfClient' dryRun
           (csvWritten
              (csvFile (generateAuditReport rt kfClient GetCurrentTime addCerts ∅ stores)))).1
  ≡ₚ calls (reconcileRoots rt'' kfClient'' k
              (actions (generateAuditReport rt kfClient GetCurrentTime addCerts ∅ stores))
              dryRun).1.
Proof.
  intros Hthumbs Hids Hstores.
  destruct (add_audit_loads rt kfClient GetCurrentTime addCerts stores Hthumbs Hids Hstores)
    as (acts & rowActions & Hload & _ & _ & <-).
  by apply reconcileImport_calls.
Qed.

Lemma replay_sends_the_requests_of_the_audit_witness :
  forallb isThumbprint (map_to_list Sample.addCerts).*2 = true
  ∧ forallb (idInRange Sample.kfClient) (map_to_list Sample.addCerts).*2 = true
  ∧ forallb storeIsText (map_to_list Sample.twoStores).*2 = true
  ∧ calls (reconcileImport rangeReversed Sample.kfClient false
             (csvWritten
                (csvFile (generateAuditReport rangeInOrder Sample.kfClient
                            Sample.GetCurrentTime Sample.addCerts ∅ Sample.twoStores)))).1
    ≡ₚ calls (reconcileRoots rangeInOrder Sample.kfClient 3
                (actions (generateAuditReport rangeInOrder Sample.kfClient
                            Sample.GetCurrentTime Sample.addCerts ∅ Sample.twoStores))
                false).1.
Proof.
  split; [reflexivity|]. split; [reflexivity|]. split; [reflexivity|].
  apply (replay_sends_the_requests_of_the_audit rangeInOrder rangeReversed rangeInOrder
           Sample.kfClient Sample.kfClient Sample.kfClient Sample.GetCurrentTime
           Sample.addCerts Sample.twoStores 3 false); reflexivity.
Defined.

(** ** The audit command *)

Section AuditFacts.

Variable kfClient : Client.
Variable inventoryOnError : string → option (list api.CertStoreInventory).
Variables minCerts maxLeaves maxKeys : Z.

Lemma audit_scan_agrees (rows : list (list string)) (i : nat) (s s' : StoreScan) :
  0 < i → Forall storeRecord rows →
  scanStores kfClient minCerts maxLeaves maxKeys i rows s = Ok s' →
  audit.scanStores kfClient inventoryOnError minCerts maxLeaves maxKeys rows
    {| audit.validHeader := true; audit.stores := stores s |}
  = Ok {| audit.validHeader := true; audit.stores := stores s' |}.
Proof.
  intros Hi Hrows. revert i s Hi.
  induction Hrows as [|row rows (Hrow & Hn1 & Hn2) _ IH]; intros i s Hi Hscan.
  - by injection Hscan as <-.
  - cbn [scanStores audit.scanStores] in *.
    unfold scanStore in Hscan. unfold audit.scanStore. rewrite Hrow.
    cbn [audit.validHeader negb audit.stores].
    destruct row as [|e0 fields]; [done|]. cbn [head] in Hn1, Hn2.
    rewrite !bool_decide_eq_false_2 in Hscan by congruence.
    replace (Nat.eqb i 0) with false in Hscan by (symmetry; apply Nat.eqb_neq; lia).
    cbn [orb] in Hscan.
    destruct (GetCertificateStoreByID kfClient e0) as [apiResp|].
    + destruct (GetCertStoreInventory kfClient e0) as [inventory|]; [|done].
      destruct (negb _).
      * apply (IH (S i)) in Hscan; [done|lia].
      * destruct fields as [|e1 [|e2 [|e3 fields]]]; try done.
        apply (IH (S i)) in Hscan; [done|lia].
    + apply (IH (S i)) in Hscan; [done|lia].
Qed.

Lemma audit_scan_skips_missing (rows : list (list string)) (s : audit.Scan) :
  audit.validHeader s = true →
  audit.scanStores kfClient inventoryOnError minCerts maxLeaves maxKeys
    (filter (λ entry, storeFound kfClient entry = true) rows) s
  = audit.scanStores kfClient inventoryOnError minCerts maxLeaves maxKeys rows s.
Proof.
  revert s. induction rows as [|row rows IH]; intros s Hs; [done|].
  rewrite filter_cons. unfold storeFound at 1. case_decide as Hkeep.
  - cbn [audit.scanStores].
    destruct (audit.scanStore _ _ _ _ _ row s) as [s1| |] eqn:Hstep; [|done..].
    apply IH. unfold audit.scanStore in Hstep.
    destruct (isHeader StoreHeader row); [by injection Hstep as <-|].
    rewrite Hs in Hstep. cbn [negb] in Hstep.
    destruct row as [|e0 fields]; [done|].
    destruct (GetCertificateStoreByID kfClient e0); [|by injection Hstep as <-].
    destruct (match GetCertStoreInventory kfClient e0 with
              | Some inventory => Some inventory
              | None => inventoryOnError e0
              end) as [inventory|]; [|done].
    destruct (negb _); [by injection Hstep as <-|].
    destruct fields as [|e1 [|e2 [|e3 fields]]]; try done. by injection Hstep as <-.
  - cbn [audit.scanStores]. unfold audit.scanStore at 1.
    destruct (isHeader StoreHeader row); [done|]. rewrite Hs. cbn [negb].
    destruct row as [|e0 fields]; [done|]. cbn [orb] in Hkeep.
    destruct (GetCertificateStoreByID kfClient e0) as [apiResp|] eqn:Hfound.
    + exfalso. apply Hkeep. by apply bool_decide_eq_true_2.
    + by apply IH.
Qed.

End AuditFacts.

(** X14. When the records read from a stores file are the header followed
    by data records, and the scan of the reconcile command over them does
    not fail, the scan of the audit command keeps the same stores, and the
    audit command writes the report of [generateAuditReport] over these
    stores and the two certificate maps. *)
Theorem audit_and_reconcile_scan_agree (rt : MapRange) (kfClient : Client)
    (inventoryOnError : string → option (list api.CertStoreInventory))
    (GetCurrentTime : nat → string) (minCerts maxLeaves maxKeys : Z)
    (storesFile : list (list string)) (first : list string) (rows : list (list string))
    (addRootsFile removeRootsFile : option (list (list string)))
    (s : StoreScan) (certsToAdd certsToRemove : gmap string string) :
  readAll storesFile = first :: rows →
  isHeader StoreHeader first = true →
  Forall storeRecord rows →
  scanStores kfClient minCerts maxLeaves maxKeys 0 (first :: rows)
             {| stores := ∅; lookupFailures := [] |} = Ok s →
  readCertsFile addRootsFile = Ok certsToAdd →
  readCertsFile removeRootsFile = Ok certsToRemove →
  audit.scanStores kfClient inventoryOnError minCerts maxLeaves maxKeys (first :: rows)
    {| audit.validHeader := false; audit.stores := ∅ |}
  = Ok {| audit.validHeader := true; audit.stores := stores s |}
  ∧ audit.rotAudit rt kfClient inventoryOnError GetCurrentTime minCerts maxLeaves maxKeys
      storesFile addRootsFile removeRootsFile
    = Ok (generateAuditReport rt kfClient GetCurrentTime certsToAdd certsToRemove (stores s)).
Proof.
  intros Hread Hfirst Hrows Hscan Hadd Hrem.
  assert (Hagree : audit.scanStores kfClient inventoryOnError minCerts maxLeaves maxKeys
            (first :: rows) {| audit.validHeader := false; audit.stores := ∅ |}
          = Ok {| audit.validHeader := true; audit.stores := stores s |}).
  { cbn [scanStores audit.scanStores] in *. unfold audit.scanStore at 1. rewrite Hfirst.
    cbn [audit.stores]. unfold scanStore in Hscan.
    destruct first as [|e0 fields]; [done|].
    rewrite Nat.eqb_refl, !orb_true_r in Hscan.
    apply (audit_scan_agrees kfClient inventoryOnError minCerts maxLeaves maxKeys rows 1
             {| stores := ∅; lookupFailures := [] |} s); [lia|done|exact Hscan]. }
  split; [exact Hagree|]. unfold audit.rotAudit. by rewrite Hread, Hagree, Hadd, Hrem.
Qed.

Lemma audit_and_reconcile_scan_agree_witness :
  readAll Sample.storeEntries = Sample.storeEntries
  ∧ isHeader StoreHeader (hd [] Sample.storeEntries) = true
  ∧ audit.scanStores Sample.kfClient (λ _, None) (-1) (-1) (-1) Sample.storeEntries
      {| audit.validHeader := false; audit.stores := ∅ |}
    = Ok {| audit.validHeader := true; audit.stores := stores Sample.scanned |}
  ∧ audit.rotAudit rangeInOrder Sample.kfClient (λ _, None) Sample.GetCurrentTime
      (-1) (-1) (-1) Sample.storeEntries (Some Sample.certsFile) None
    = Ok (generateAuditReport rangeInOrder Sample.kfClient Sample.GetCurrentTime
            {[ "CCC333" := "CCC333" ]} ∅ (stores Sample.scanned)).
Proof.
  split; [reflexivity|]. split; [reflexivity|].
  apply (audit_and_reconcile_scan_agree rangeInOrder Sample.kfClient (λ _, None)
           Sample.GetCurrentTime (-1) (-1) (-1) Sample.storeEntries
           (hd [] Sample.storeEntries)
           (tl Sample.storeEntries) (Some Sample.certsFile) None Sample.scanned).
  - reflexivity.
  - reflexivity.
  - repeat constructor; by vm_compute.
  - reflexivity.
  - reflexivity.
  - reflexivity.
Defined.

(** X15. The audit command skips the stores the client cannot find: on
    a stores file that starts with the header and whose records all have as
    many fields as the header, so that [ReadAll] returns them, the scan and
    the run of the command have the same outcome as on the file without the
    records of such stores. *)
Theorem audit_skips_missing_stores (rt : MapRange) (kfClient : Client)
    (inventoryOnError : string → option (list api.CertStoreInventory))
    (GetCurrentTime : nat → string)
    (minCerts maxLeaves maxKeys : Z) (first : list string) (rows : list (list string))
    (addRootsFile removeRootsFile : option (list (list string))) :
  isHeader StoreHeader first = true →
  Forall (λ record, length record = length first) rows →
  audit.scanStores kfClient inventoryOnError minCerts maxLeaves maxKeys
    (readAll (first :: filter (λ entry, storeFound kfClient entry = true) rows))
    {| audit.validHeader := false; audit.stores := ∅ |}
  = audit.scanStores kfClient inventoryOnError minCerts maxLeaves maxKeys
      (readAll (first :: rows)) {| audit.validHeader := false; audit.stores := ∅ |}
  ∧ audit.rotAudit rt kfClient inventoryOnError GetCurrentTime minCerts maxLeaves maxKeys
      (first :: filter (λ entry, storeFound kfClient entry = true) rows)
      addRootsFile removeRootsFile
    = audit.rotAudit rt kfClient inventoryOnError GetCurrentTime minCerts maxLeaves maxKeys
        (first :: rows) addRootsFile removeRootsFile.
Proof.
  intros Hfirst Hrows.
  assert (Hne : first ≠ []) by (by intros ->).
  assert (Hscan :
    audit.scanStores kfClient inventoryOnError minCerts maxLeaves maxKeys
      (readAll (first :: filter (λ entry, storeFound kfClient entry = true) rows))
      {| audit.validHeader := false; audit.stores := ∅ |}
    = audit.scanStores kfClient inventoryOnError minCerts maxLeaves maxKeys
        (readAll (first :: rows)) {| audit.validHeader := false; audit.stores := ∅ |}).
  { rewrite !readAll_uniform; [|done|done|done|].
    2:{ apply Forall_forall. intros record [_ Hin]%list_elem_of_filter.
        rewrite Forall_forall in Hrows. by apply Hrows. }
    cbn [audit.scanStores].
    assert (audit.scanStore kfClient inventoryOnError minCerts maxLeaves maxKeys first
              {| audit.validHeader := false; audit.stores := ∅ |}
            = Ok {| audit.validHeader := true; audit.stores := ∅ |}) as ->
      by (unfold audit.scanStore; by rewrite Hfirst).
    by apply audit_scan_skips_missing. }
  split; [exact Hscan|]. unfold audit.rotAudit. by rewrite Hscan.
Qed.

Lemma audit_skips_missing_stores_witness :
  isHeader StoreHeader (hd [] Sample.storeEntries) = true
  ∧ filter (λ entry, storeFound Sample.kfClient entry = true) (tl Sample.storeEntries)
    = tl Sample.foundEntries
  ∧ audit.rotAudit rangeInOrder Sample.kfClient (λ _, None) Sample.GetCurrentTime
      (-1) (-1) (-1)
      (hd [] Sample.storeEntries
       :: filter (λ entry, storeFound Sample.kfClient entry = true) (tl Sample.storeEntries))
      (Some Sample.certsFile) None
    = audit.rotAudit rangeInOrder Sample.kfClient (λ _, None) Sample.GetCurrentTime
        (-1) (-1) (-1) (hd [] Sample.storeEntries :: tl Sample.storeEntries)
        (Some Sample.certsFile) None.
Proof.
  split; [reflexivity|]. split; [by vm_compute|].
  apply (audit_skips_missing_stores rangeInOrder Sample.kfClient (λ _, None)
           Sample.GetCurrentTime (-1) (-1) (-1)
           (hd [] Sample.storeEntries) (tl Sample.storeEntries) (Some Sample.certsFile) None).
  - reflexivity.
  - repeat constructor.
Defined.

(** ** The template command *)

Section TemplateFacts.

Variable kfClient : template.Client.
Variable GetCurrentTime : nat → string.
Variable formatLocations : list template.Cert.Location → string.

Lemma firstFields_snoc (rows : list (list string)) (e0 : string) (fields : list string) :
  firstFields (rows ++ [e0 :: fields]) = firstFields rows ++ [e0].
Proof. unfold firstFields. by rewrite omap_app. Qed.

Lemma wellFormed_new_row (st : template.State) (k : string)
    (stores certs : list (list string)) :
  template.wellFormed st →
  firstFields stores ++ firstFields certs
    ≡ₚ k :: (firstFields (template.csvStoreData st) ++ firstFields (template.csvCertData st)) →
  Forall (λ row, length row = 7) stores → Forall (λ row, length row = 6) certs →
  default false (template.rowLookup st !! k) = false →
  template.wellFormed
    {| template.stID := template.stID st; template.storeData := template.storeData st;
       template.csvStoreData := stores; template.csvCertData := certs;
       template.rowLookup := <[k := true]> (template.rowLookup st) |}.
Proof.
  intros (_ & _ & Hnodup & Hmarked) Hperm Hstores Hcerts Hk.
  unfold template.wellFormed.
  cbn [template.csvStoreData template.csvCertData template.rowLookup].
  split; [done|]. split; [done|]. split.
  - rewrite Hperm. apply NoDup_cons. split; [|done].
    intros Hin. apply Hmarked in Hin. by rewrite Hin in Hk.
  - intros k'. rewrite Hperm, elem_of_cons. intros [->|Hin].
    + by rewrite lookup_insert_eq.
    + destruct (decide (k = k')) as [->|]; [by rewrite lookup_insert_eq|].
      rewrite lookup_insert_ne by done. by apply Hmarked.
Qed.

Lemma wellFormed_same (st st' : template.State) :
  template.csvStoreData st' = template.csvStoreData st →
  template.csvCertData st' = template.csvCertData st →
  template.rowLookup st' = template.rowLookup st →
  template.wellFormed st → template.wellFormed st'.
Proof. unfold template.wellFormed. by intros -> -> ->. Qed.

Lemma addStoreRow_wellFormed (shortName : string) (st : template.State)
    (store : template.Store.Info) :
  template.wellFormed st →
  template.wellFormed (template.addStoreRow GetCurrentTime shortName st store).
Proof.
  intros Hst. unfold template.addStoreRow.
  destruct (default false _) eqn:Hk; cbn [negb].
  - by eapply wellFormed_same, Hst.
  - apply (wellFormed_new_row st (template.Store.Id store)); try done.
    + rewrite firstFields_snoc, <- app_assoc. cbn [app]. symmetry. apply Permutation_middle.
    + destruct Hst as (Hs & _). apply Forall_app. split; [done|]. by repeat constructor.
    + by destruct Hst as (_ & Hc & _).
Qed.

Lemma addCertRow_wellFormed (locations : template.Cert.Info → string)
    (st : template.State) (cert : template.Cert.Info) :
  template.wellFormed st →
  template.wellFormed (template.addCertRow GetCurrentTime locations st cert).
Proof.
  intros Hst. unfold template.addCertRow.
  destruct (default false _) eqn:Hk; cbn [negb]; [done|].
  apply (wellFormed_new_row st (template.Cert.Thumbprint cert)); try done.
  - rewrite firstFields_snoc, app_assoc. symmetry. apply Permutation_cons_append.
  - by destruct Hst as (Hs & _).
  - destruct Hst as (_ & Hc & _). apply Forall_app. split; [done|]. by repeat constructor.
Qed.

Lemma byStoreType_wellFormed (st st' : template.State) (s : string) :
  template.byStoreType kfClient GetCurrentTime st s = Ok st' →
  template.wellFormed st → template.wellFormed st'.
Proof.
  unfold template.byStoreType. intros Hstep Hst.
  destruct (template.GetCertificateStoreTypeByName kfClient s) as [sType|];
    [|by injection Hstep as <-].
  destruct (0 <=? _)%Z; [|injection Hstep as <-; by eapply wellFormed_same, Hst].
  destruct (template.ListCertificateStores kfClient) as [stores|]; [|done].
  injection Hstep as <-. apply fold_left_invariant; [by eapply wellFormed_same, Hst|].
  intros store st2 _ Hst2. case_bool_decide; [|done]. by apply addStoreRow_wellFormed.
Qed.

Lemma byStoreTypes_wellFormed (storeType : list string) (st st' : template.State) :
  template.byStoreTypes kfClient GetCurrentTime storeType st = Ok st' →
  template.wellFormed st → template.wellFormed st'.
Proof.
  revert st. induction storeType as [|s rest IH]; intros st Hrun Hst.
  - by injection Hrun as <-.
  - cbn [template.byStoreTypes] in Hrun.
    destruct (template.byStoreType _ _ st s) as [st1| |] eqn:Hstep; [|done..].
    eapply IH; [done|]. by eapply byStoreType_wellFormed.
Qed.

Lemma gather_wellFormed (storeType containerType collection subjectName : list string)
    (st : template.State) :
  template.gather kfClient GetCurrentTime formatLocations
                  storeType containerType collection subjectName = Ok st →
  template.wellFormed st.
Proof.
  unfold template.gather.
  destruct (template.byStoreTypes _ _ _ _) as [st1| |] eqn:Hrun; [|done..].
  intros [= <-].
  apply byStoreTypes_wellFormed in Hrun;
    [|repeat split; try done; [apply NoDup_nil_2|by intros ? ?%elem_of_nil]].
  apply fold_left_invariant; [apply fold_left_invariant; [apply fold_left_invariant|]|].
  - done.
  - intros c st2 _ Hst2. unfold template.byContainer.
    destruct (template.GetCertificateStoreByContainerID kfClient c); [|done].
    apply fold_left_invariant; [done|]. intros store st3 _ Hst3.
    destruct (template.GetCertificateStoreType kfClient _); [|done].
    by apply addStoreRow_wellFormed.
  - intros c st2 _ Hst2. unfold template.byCollection.
    apply fold_left_invariant; [done|]. intros cert st3 _ Hst3.
    by apply addCertRow_wellFormed.
  - intros c st2 _ Hst2. unfold template.bySubject.
    apply fold_left_invariant; [done|]. intros cert st3 _ Hst3.
    by apply addCertRow_wellFormed.
Qed.

End TemplateFacts.

(** X16. The CSV template that the template command writes has records
    of one length, so that [csvReadAll] accepts it, and no two of its records
    after the first have the same first field.  For the type stores the
    first record is the stores header, for the type certs the certificates
    header, for the type actions the file is the audit header alone, and for
    any other type the file has no record. *)
Theorem template_file_is_well_formed (kfClient : template.Client)
    (GetCurrentTime : nat → string)
    (formatLocations : list template.Cert.Location → string)
    (templateType format : string)
    (storeType containerType collection subjectName : list string)
    (data : list (list string)) :
  template.rotGenStoreTemplate kfClient GetCurrentTime formatLocations templateType format
    storeType containerType collection subjectName = Ok (template.Csv data) →
  csvReadAll data = Some data
  ∧ NoDup (firstFields (tail data))
  ∧ (templateType = "stores" → head data = Some StoreHeader)
  ∧ (templateType = "certs" → head data = Some CertHeader)
  ∧ (templateType = "actions" → data = [AuditHeader])
  ∧ (templateType ∉ ["stores"; "certs"; "actions"] → data = []).
Proof.
  unfold template.rotGenStoreTemplate.
  destruct (template.gather _ _ _ _ _ _ _) as [st| |] eqn:Hgather; [|done..].
  apply gather_wellFormed in Hgather as (Hstores & Hcerts & Hnodup & _).
  case_bool_decide; [|by case_bool_decide]. intros [= <-].
  apply NoDup_app in Hnodup as (Hnd1 & _ & Hnd2).
  unfold template.csvData. repeat case_bool_decide; subst; cbn [tail head].
  - repeat split; try done; [by apply csvReadAll_uniform|].
    intros Hnot. exfalso. apply Hnot. set_solver.
  - repeat split; try done; [by apply csvReadAll_uniform|].
    intros Hnot. exfalso. apply Hnot. set_solver.
  - repeat split; try done; [apply NoDup_nil_2|].
    intros Hnot. exfalso. apply Hnot. set_solver.
  - repeat split; try done. apply NoDup_nil_2.
Qed.

Lemma template_file_is_well_formed_witness :
  template.rotGenStoreTemplate SampleTemplate.kfClient Sample.GetCurrentTime (λ _, "[]")
    "stores" "csv" ["PEM"; "unknown"] ["12"] [] [] = Ok (template.Csv SampleTemplate.storesTemplate)
  ∧ csvReadAll SampleTemplate.storesTemplate = Some SampleTemplate.storesTemplate
  ∧ NoDup (firstFields (tail SampleTemplate.storesTemplate))
  ∧ ("stores" = "stores" → head SampleTemplate.storesTemplate = Some StoreHeader)
  ∧ ("stores" = "certs" → head SampleTemplate.storesTemplate = Some CertHeader)
  ∧ ("stores" = "actions" → SampleTemplate.storesTemplate = [AuditHeader])
  ∧ ("stores" ∉ ["stores"; "certs"; "actions"] → SampleTemplate.storesTemplate = []).
Proof.
  split; [reflexivity|].
  apply (template_file_is_well_formed SampleTemplate.kfClient Sample.GetCurrentTime
           (λ _, "[]") "stores" "csv" ["PEM"; "unknown"] ["12"] [] []).
  reflexivity.
Defined.

(** ** The store types: [buildStoreTypePropertiesInterface] *)

Section StoreTypeFacts.

Lemma buildProperty_describes (prop : storeTypes.JSON)
    (d : storeTypes.StoreTypePropertyDefinition) :
  storeTypes.buildProperty prop = Some d ↔ storeTypes.describes prop d.
Proof.
  unfold storeTypes.buildProperty, storeTypes.describes. split.
  - destruct prop as [| | | | |p]; try done.
    destruct (p !! "Name") as [[]|] eqn:Hname; try done.
    destruct (p !! "DisplayName") as [[]|] eqn:Hdisplay; try done.
    destruct (p !! "Type") as [[]|] eqn:Htype; try done.
    destruct (p !! "DependsOn") as [[]|] eqn:Hdepends; try done.
    destruct (p !! "Required") as [[]|] eqn:Hrequired; try done.
    cbn. intros [= <-]. exists p. cbn. by repeat split.
  - intros (p & -> & -> & -> & -> & -> & -> & Hd). cbn. rewrite <- Hd. by destruct d.
Qed.

Lemma buildProperty_wellTyped (prop : storeTypes.JSON) :
  is_Some (storeTypes.buildProperty prop) ↔ storeTypes.wellTyped prop.
Proof.
  unfold storeTypes.buildProperty, storeTypes.wellTyped. split.
  - intros [d Hd]. destruct prop as [| | | | |p]; try done. exists p. split; [done|].
    destruct (storeTypes.assertString (p !! "Name")); [|done].
    destruct (storeTypes.assertString (p !! "DisplayName")); [|done].
    destruct (storeTypes.assertString (p !! "Type")); [|done].
    destruct (storeTypes.assertString (p !! "DependsOn")); [|done].
    destruct (storeTypes.assertBool (p !! "Required")); [|done].
    by repeat split.
  - intros (p & -> & [? ->] & [? ->] & [? ->] & [? ->] & [? ->]). by eexists.
Qed.

Lemma build_spec (properties : list storeTypes.JSON)
    (output : list storeTypes.StoreTypePropertyDefinition) :
  (Forall storeTypes.wellTyped properties →
   ∃ ds, storeTypes.buildStoreTypePropertiesInterface properties output
         = Ok (output ++ ds, None)
         ∧ Forall2 storeTypes.describes properties ds)
  ∧ (¬ Forall storeTypes.wellTyped properties →
     storeTypes.buildStoreTypePropertiesInterface properties output = Panic).
Proof.
  revert output. induction properties as [|prop rest IH]; intros output.
  - split; [|by intros []]. intros _. exists []. by rewrite app_nil_r.
  - cbn [storeTypes.buildStoreTypePropertiesInterface].
    destruct (storeTypes.buildProperty prop) as [d|] eqn:Hd.
    + destruct (IH (output ++ [d])) as [Hok Hpanic]. split.
      * intros [_ Hrest]%Forall_cons. destruct (Hok Hrest) as (ds & -> & Hds).
        exists (d :: ds). rewrite <- app_assoc. split; [done|].
        constructor; [by apply buildProperty_describes|done].
      * intros Hnot. apply Hpanic. intros Hrest. apply Hnot. constructor; [|done].
        apply buildProperty_wellTyped. by rewrite Hd.
    + split; [|done]. intros [Hprop _]%Forall_cons.
      apply buildProperty_wellTyped in Hprop as [? Hprop]. by rewrite Hd in Hprop.
Qed.

Lemma wellTyped_all_or_not (properties : list storeTypes.JSON) :
  Forall storeTypes.wellTyped properties ∨ ¬ Forall storeTypes.wellTyped properties.
Proof.
  destruct (decide (Forall (λ prop, is_Some (storeTypes.buildProperty prop)) properties))
    as [Hall|Hnot]; [left|right].
  - eapply Forall_impl; [exact Hall|]. intros prop. apply buildProperty_wellTyped.
  - intros Hall. apply Hnot. eapply Forall_impl; [exact Hall|].
    intros prop. apply buildProperty_wellTyped.
Qed.

End StoreTypeFacts.

(** X17. [buildStoreTypePropertiesInterface] returns, with a nil error,
    one definition for every property, in the order of the properties and
    with the fields of the property, when every property is a map with
    strings under Name, DisplayName, Type and DependsOn and a bool under
    Required; otherwise it panics.  It never ends the run with a fatal
    error and never returns an error. *)
Theorem buildStoreTypeProperties_spec (properties : list storeTypes.JSON) :
  (Forall storeTypes.wellTyped properties →
   ∃ ds, storeTypes.buildStoreTypePropertiesInterface properties [] = Ok (ds, None)
         ∧ length ds = length properties
         ∧ Forall2 storeTypes.describes properties ds)
  ∧ (¬ Forall storeTypes.wellTyped properties →
     storeTypes.buildStoreTypePropertiesInterface properties [] = Panic)
  ∧ (∀ msg, storeTypes.buildStoreTypePropertiesInterface properties [] ≠ Fatal msg)
  ∧ (∀ ds err, storeTypes.buildStoreTypePropertiesInterface properties [] = Ok (ds, err) →
       err = None).
Proof.
  destruct (build_spec properties []) as [Hok Hpanic].
  destruct (wellTyped_all_or_not properties) as [Hall|Hnot].
  - destruct (Hok Hall) as (ds & Hrun & Hds). cbn [app] in Hrun. rewrite Hrun.
    repeat split; try done.
    + intros _. exists ds. repeat split; try done. symmetry. by eapply Forall2_length.
    + by intros ?? [= _ <-].
  - rewrite (Hpanic Hnot). repeat split; try done.
Qed.
